(** * A shallow embedding of [chess.py]: the click-driven chess board.

    The program is a single game loop ([main]) around a rules engine.
    The engine (the [chess] package) is not part of the program: its
    pure helpers on squares and UCI strings are written out below, and
    its board object is an interface ([RulesEngine]) the loop is
    parametrised by.  Python exceptions are explicit ([Outcome]); the
    local variables of [main], together with a log of the calls made to
    the engine, are threaded through a small state-and-error monad. *)

From Stdlib Require Import ZArith List String Ascii Bool Lia.
Import ListNotations.
Local Open Scope string_scope.
Local Open Scope Z_scope.

(** ** 1. Configuration constants (chess.py, lines 6-10) *)

Definition SQUARE_SIZE : Z := 80.
Definition BOARD_SIZE : Z := SQUARE_SIZE * 8.
Definition SCREEN_WIDTH : Z := BOARD_SIZE + 200.
Definition SCREEN_HEIGHT : Z := BOARD_SIZE.
Definition FPS : Z := 60.

(** ** 2. Exceptions *)

Inductive Exn : Type :=
| ValueError
| AttributeError
| IndexError.

Inductive Outcome (A : Type) : Type :=
| Return (a : A)
| Raise (e : Exn).
Arguments Return {A} a.
Arguments Raise {A} e.

(** ** 3. The pure part of the [chess] package used by the program *)

Module PyChess.

(** [Color = bool], [WHITE = True], [BLACK = False]. *)
Definition Color : Type := bool.
Definition WHITE : Color := true.
Definition BLACK : Color := false.

(** [PAWN .. KING = range(1, 7)]. *)
Inductive PieceType : Type :=
| PAWN | KNIGHT | BISHOP | ROOK | QUEEN | KING.

Definition piece_type_eqb (a b : PieceType) : bool :=
  match a, b with
  | PAWN, PAWN | KNIGHT, KNIGHT | BISHOP, BISHOP
  | ROOK, ROOK | QUEEN, QUEEN | KING, KING => true
  | _, _ => false
  end.

Record Piece : Type := mkPiece { piece_type : PieceType; color : Color }.

(** [PIECE_SYMBOLS = [None, "p", "n", "b", "r", "q", "k"]]; the entry
    [None] never equals a string, so [PIECE_SYMBOLS.index] on a
    one-character string is this lookup. *)
Definition piece_symbol_index (c : ascii) : option PieceType :=
  if Ascii.eqb c "p" then Some PAWN
  else if Ascii.eqb c "n" then Some KNIGHT
  else if Ascii.eqb c "b" then Some BISHOP
  else if Ascii.eqb c "r" then Some ROOK
  else if Ascii.eqb c "q" then Some QUEEN
  else if Ascii.eqb c "k" then Some KING
  else None.

(** [Piece.symbol()]: upper case for white, lower case for black. *)
Definition symbol (p : Piece) : string :=
  match piece_type p, color p with
  | PAWN, true => "P" | KNIGHT, true => "N" | BISHOP, true => "B"
  | ROOK, true => "R" | QUEEN, true => "Q" | KING, true => "K"
  | PAWN, false => "p" | KNIGHT, false => "n" | BISHOP, false => "b"
  | ROOK, false => "r" | QUEEN, false => "q" | KING, false => "k"
  end.

Definition FILE_NAMES : list ascii :=
  ["a"; "b"; "c"; "d"; "e"; "f"; "g"; "h"]%char.
Definition RANK_NAMES : list ascii :=
  ["1"; "2"; "3"; "4"; "5"; "6"; "7"; "8"]%char.

(** [SQUARE_NAMES = [f + r for r in RANK_NAMES for f in FILE_NAMES]]. *)
Definition SQUARE_NAMES : list string :=
  flat_map (fun r => map (fun f => String f (String r EmptyString)) FILE_NAMES)
           RANK_NAMES.

(** [square(file_index, rank_index) = rank_index * 8 + file_index]. *)
Definition square (file_index rank_index : Z) : Z :=
  rank_index * 8 + file_index.

(** [square_file(square) = square & 7], [square_rank(square) = square >> 3]. *)
Definition square_file (sq : Z) : Z := Z.land sq 7.
Definition square_rank (sq : Z) : Z := Z.shiftr sq 3.

(** Python list indexing: a negative index counts from the end, an
    index outside [-len, len) raises [IndexError]. *)
Definition py_getitem {A : Type} (l : list A) (i : Z) : Outcome A :=
  let n := Z.of_nat (List.length l) in
  let j := if i <? 0 then i + n else i in
  if (0 <=? j) && (j <? n)
  then match nth_error l (Z.to_nat j) with
       | Some a => Return a
       | None => Raise IndexError
       end
  else Raise IndexError.

(** [list.index]: position of the first equal element, [ValueError]
    when there is none. *)
Fixpoint index_from (name : string) (l : list string) (i : Z) : Outcome Z :=
  match l with
  | [] => Raise ValueError
  | s :: l' => if String.eqb s name then Return i else index_from name l' (i + 1)
  end.

(** [square_name(square) = SQUARE_NAMES[square]]. *)
Definition square_name (sq : Z) : Outcome string := py_getitem SQUARE_NAMES sq.

(** [parse_square(name) = SQUARE_NAMES.index(name)]. *)
Definition parse_square (name : string) : Outcome Z := index_from name SQUARE_NAMES 0.

(** [Move(from_square, to_square, promotion=None, drop=None)]. *)
Record Move : Type := mkMove {
  from_square : Z;
  to_square : Z;
  promotion : option PieceType;
  drop : option PieceType
}.

Definition null_move : Move := mkMove 0 0 None None.

(** [str.lower] on one ASCII character. *)
Definition lower (c : ascii) : ascii :=
  let n := nat_of_ascii c in
  if (Nat.leb 65 n && Nat.leb n 90)%bool then ascii_of_nat (n + 32) else c.

(** [Move.from_uci(uci)].  The null move is written [0000]; a drop is
    [P@e4]; otherwise two square names and an optional promotion
    letter.  A move from a square to itself is rejected: every error
    is [InvalidMoveError], a subclass of [ValueError]. *)
Definition from_uci (uci : string) : Outcome Move :=
  let len := String.length uci in
  if String.eqb uci "0000" then Return null_move
  else if (Nat.eqb len 4 && String.eqb (substring 1 1 uci) "@")%bool then
    match String.get 0 uci with
    | Some c =>
        match piece_symbol_index (lower c), parse_square (substring 2 2 uci) with
        | Some d, Return sq => Return (mkMove sq sq None (Some d))
        | _, _ => Raise ValueError
        end
    | None => Raise ValueError
    end
  else if (Nat.leb 4 len && Nat.leb len 5)%bool then
    match parse_square (substring 0 2 uci), parse_square (substring 2 2 uci) with
    | Return f, Return t =>
        let prom :=
          if Nat.eqb len 5
          then match String.get 4 uci with
               | Some c => match piece_symbol_index c with
                           | Some p => Return (Some p)
                           | None => Raise ValueError
                           end
               | None => Raise ValueError
               end
          else Return None in
        match prom with
        | Return p =>
            if f =? t then Raise ValueError else Return (mkMove f t p None)
        | Raise e => Raise e
        end
    | _, _ => Raise ValueError
    end
  else Raise ValueError.

End PyChess.
Import PyChess.

(** ** 4. Coordinate translation (chess.py, lines 73, 108-117) *)

(** A board cell is [(col, row)] in pygame coordinates, row 0 on top. *)
Definition Cell : Type := (Z * Z)%type.

(** [col = x // SQUARE_SIZE], [row = y // SQUARE_SIZE] (floor division). *)
Definition pixel_to_cell (pos : Z * Z) : Cell :=
  (fst pos / SQUARE_SIZE, snd pos / SQUARE_SIZE).

(** [0 <= col < 8 and 0 <= row < 8]. *)
Definition in_board (c : Cell) : bool :=
  ((0 <=? fst c) && (fst c <? 8)) && ((0 <=? snd c) && (snd c <? 8)).

(** [chess.square(col, 7 - row)], as in [draw_board] and in [main]. *)
Definition cell_to_square_id (c : Cell) : Z := square (fst c) (7 - snd c).

(** Modelled from the spec: the program has no function from a square
    back to a cell (the renderer walks the cells and maps each forward);
    [square_id_to_cell] is "the inverse of the above", written with the
    engine's own accessors: column = file, row = 7 - rank. *)
Definition square_id_to_cell (sq : Z) : Cell :=
  (square_file sq, 7 - square_rank sq).

(** ** 5. The rules engine: the interface of [chess.Board] the loop uses *)

Class RulesEngine : Type := {
  Board : Type;
  (** [chess.Board()]: the starting position. *)
  start_board : Board;
  (** [board.piece_at(square)]: the piece on a square, or [None]. *)
  piece_at : Board -> Z -> option Piece;
  (** [board.turn]: the side to move. *)
  turn : Board -> Color;
  (** [move in board.legal_moves]. *)
  is_legal : Board -> Move -> bool;
  (** [board.push(move)]: the position after the move. *)
  push : Board -> Move -> Board;
  is_checkmate : Board -> bool;
  is_stalemate : Board -> bool;
  is_check : Board -> bool
}.

(** Calls made to the engine while an event is handled, oldest first. *)
Inductive Call : Type :=
| Call_from_uci (uci : string)
| Call_piece_at (sq : Z)
| Call_legal_moves_contains (m : Move)
| Call_push (m : Move).

(** pygame events, by [event.type], with the attributes the loop reads. *)
Inductive Event : Type :=
| QUIT
| MOUSEBUTTONDOWN (pos : Z * Z) (button : Z)
| MOUSEBUTTONUP (pos : Z * Z) (button : Z)
| MOUSEMOTION (pos : Z * Z)
| KEYDOWN (key : Z)
| KEYUP (key : Z)
| OTHEREVENT (type_id : Z).

Section GameLoop.

Context {E : RulesEngine}.

(** The local variables of [main]: [game_board], [running] and
    [selected_square_coords].  [calls] is not a variable of the program:
    it records the calls the event handling makes to the engine, so that
    "nothing was asked", "no move was built" and "nothing was pushed"
    can be stated. *)
Record Env : Type := mkEnv {
  game_board : Board;
  running : bool;
  selected_square_coords : option Cell;
  calls : list Call
}.

(** *** A state-and-exception monad: an exception keeps the state
    reached when it was raised, as Python does. *)
Definition M (A : Type) : Type := Env -> Outcome A * Env.

Definition ret {A} (a : A) : M A := fun s => (Return a, s).

Definition bind {A B} (m : M A) (f : A -> M B) : M B :=
  fun s => match m s with
           | (Return a, s') => f a s'
           | (Raise e, s') => (Raise e, s')
           end.

Definition lift {A} (o : Outcome A) : M A := fun s => (o, s).

Definition add_calls (s : Env) (cs : list Call) : Env :=
  mkEnv (game_board s) (running s) (selected_square_coords s) (calls s ++ cs).

Definition log (c : Call) : M unit :=
  fun s => (Return tt, add_calls s [c]).

(** [try: body except ValueError: pass]. *)
Definition try_except_ValueError (body : M unit) : M unit :=
  fun s => match body s with
           | (Raise ValueError, s') => (Return tt, s')
           | r => r
           end.

Notation "x <- c1 ;; c2" := (bind c1 (fun x => c2))
  (at level 100, c1 at next level, right associativity).
Notation "c1 ;;; c2" := (bind c1 (fun _ => c2))
  (at level 100, right associativity).

Definition set_running (b : bool) : M unit :=
  fun s => (Return tt, mkEnv (game_board s) b (selected_square_coords s) (calls s)).

Definition set_selected_square_coords (c : option Cell) : M unit :=
  fun s => (Return tt, mkEnv (game_board s) (running s) c (calls s)).

Definition get_selected_square_coords : M (option Cell) :=
  fun s => (Return (selected_square_coords s), s).

Definition Move_from_uci (uci : string) : M Move :=
  log (Call_from_uci uci) ;;; lift (from_uci uci).

Definition board_piece_at (sq : Z) : M (option Piece) :=
  log (Call_piece_at sq) ;;; fun s => (Return (piece_at (game_board s) sq), s).

Definition board_turn : M Color :=
  fun s => (Return (turn (game_board s)), s).

Definition board_legal_moves_contains (m : Move) : M bool :=
  log (Call_legal_moves_contains m) ;;;
  fun s => (Return (is_legal (game_board s) m), s).

Definition board_push (m : Move) : M unit :=
  log (Call_push m) ;;;
  fun s => (Return tt,
            mkEnv (push (game_board s) m) (running s)
                  (selected_square_coords s) (calls s)).

(** [piece.piece_type] where [piece] may be [None]. *)
Definition attr_piece_type (p : option Piece) : M PieceType :=
  match p with
  | Some p => ret (piece_type p)
  | None => lift (Raise AttributeError)
  end.

(** *** Lines 127-133: the candidate move, with the queen promotion. *)
Definition build_move (move_uci : string) : M Move :=
  move <- Move_from_uci move_uci ;;
  p <- board_piece_at (from_square move) ;;
  pt <- attr_piece_type p ;;
  if piece_type_eqb pt PAWN
     && ((square_rank (to_square move) =? 7) || (square_rank (to_square move) =? 0))
  then Move_from_uci (move_uci ++ "q")
  else ret move.

(** Lines 117-133 read as the move builder: the names of the two
    cells' squares, joined, then [build_move]. *)
Definition candidate (selected clicked : Cell) : M Move :=
  start_square_name <- lift (square_name (cell_to_square_id selected)) ;;
  chess_square_name <- lift (square_name (cell_to_square_id clicked)) ;;
  build_move (start_square_name ++ chess_square_name).

(** Lines 127-136: the body of the [try]. *)
Definition attempt_move (move_uci : string) : M unit :=
  move <- build_move move_uci ;;
  legal <- board_legal_moves_contains move ;;
  if legal then board_push move else ret tt.

(** Lines 120-141: the second click.  Only [ValueError] is caught; the
    selection is reset after the [try], whatever happened inside. *)
Definition second_click (selected : Cell) (chess_square_name : string) : M unit :=
  let '(start_col, start_row) := selected in
  start_square_name <- lift (square_name (square start_col (7 - start_row))) ;;
  let move_uci := start_square_name ++ chess_square_name in
  try_except_ValueError (attempt_move move_uci) ;;;
  set_selected_square_coords None.

(** Lines 144-149: the first click.  A [Piece] is always true, so
    [piece and ...] fails only on [None]; the turn is read only when
    there is a piece. *)
Definition first_click (clicked_coords : Cell) (chess_square_name : string) : M unit :=
  sq <- lift (parse_square chess_square_name) ;;
  piece <- board_piece_at sq ;;
  match piece with
  | Some p =>
      t <- board_turn ;;
      if Bool.eqb (color p) t
      then set_selected_square_coords (Some clicked_coords)
      else ret tt
  | None => ret tt
  end.

(** Lines 107-149: a left click at pixel [pos].  In
    [if selected_square_coords:] a pair of coordinates is true whatever
    its components, and [None] is false. *)
Definition left_click (pos : Z * Z) : M unit :=
  let '(x, y) := pos in
  let col := x / SQUARE_SIZE in
  let row := y / SQUARE_SIZE in
  if ((0 <=? col) && (col <? 8)) && ((0 <=? row) && (row <? 8)) then
    let clicked_coords := (col, row) in
    chess_square_name <- lift (square_name (square col (7 - row))) ;;
    selected <- get_selected_square_coords ;;
    match selected with
    | Some sel => second_click sel chess_square_name
    | None => first_click clicked_coords chess_square_name
    end
  else ret tt.

(** Lines 102-149: the body of [for event in pygame.event.get()]. *)
Definition handle_event (event : Event) : M unit :=
  (match event with
   | QUIT => set_running false
   | _ => ret tt
   end) ;;;
  match event with
  | MOUSEBUTTONDOWN pos button => if button =? 1 then left_click pos else ret tt
  | _ => ret tt
  end.

(** [event.type == pygame.MOUSEBUTTONDOWN and event.button == 1]. *)
Definition is_left_click (event : Event) : bool :=
  match event with
  | MOUSEBUTTONDOWN _ button => button =? 1
  | _ => false
  end.

Fixpoint handle_events (events : list Event) : M unit :=
  match events with
  | [] => ret tt
  | event :: rest => handle_event event ;;; handle_events rest
  end.

(** *** Lines 164-171: the status line. *)
Definition status_text (b : Board) : string :=
  let status_text := "Turn: " ++ (if Bool.eqb (turn b) WHITE then "White" else "Black") in
  if is_checkmate b then
    "CHECKMATE! " ++ (if Bool.eqb (turn b) WHITE then "Black Wins" else "White Wins")
  else if is_stalemate b then "STALEMATE (Draw)"
  else if is_check b then status_text ++ " (CHECK)"
  else status_text.

(** One iteration of [while running]: the pending events, then the
    frame is drawn; the frame's status line is what is returned. *)
Definition frame (events : list Event) : M string :=
  handle_events events ;;;
  fun s => (Return (status_text (game_board s)), s).

(** [while running], fed the events of each iteration in turn. *)
Fixpoint main_loop (frames : list (list Event)) : M (list string) :=
  fun s =>
    if running s then
      match frames with
      | [] => (Return [], s)
      | events :: rest =>
          (text <- frame events ;;
           texts <- main_loop rest ;;
           ret (text :: texts)) s
      end
    else (Return [], s).

(** The state [main] starts from (lines 94-98). *)
Definition initial_env : Env := mkEnv start_board true None [].

End GameLoop.

(** ** 6. States of the loop *)

Section Reachability.

Context {E : RulesEngine}.

(** The states [main] can be in when it starts to handle an event:
    the initial one, and any state an event was handled in without an
    exception (an exception leaves [main]). *)
Inductive reachable : Env -> Prop :=
| reachable_initial : reachable initial_env
| reachable_event (env env' : Env) (event : Event) :
    reachable env ->
    handle_event event env = (Return tt, env') ->
    reachable env'.

(** The invariant of the selection: a selected cell is on the board
    and holds a piece of the side to move. *)
Definition selection_invariant (env : Env) : Prop :=
  forall c, selected_square_coords env = Some c ->
    in_board c = true /\
    exists p, piece_at (game_board env) (cell_to_square_id c) = Some p /\
              color p = turn (game_board env).

(** No pawn stands on the first or the last rank. *)
Definition no_pawn_on_back_rank (b : Board) : Prop :=
  forall sq p, piece_at b sq = Some p -> piece_type p = PAWN ->
    square_rank sq <> 0 /\ square_rank sq <> 7.

End Reachability.

(** ** 7. Checks over the table of square names *)

Definition all_squares : list Z := map Z.of_nat (seq 0 64).

Definition move_eqb (m1 m2 : Move) : bool :=
  let opt_eqb (a b : option PieceType) :=
    match a, b with
    | Some x, Some y => piece_type_eqb x y
    | None, None => true
    | _, _ => false
    end in
  (from_square m1 =? from_square m2) && (to_square m1 =? to_square m2)
  && opt_eqb (promotion m1) (promotion m2) && opt_eqb (drop m1) (drop m2).

(** What [from_uci] makes of two square names put together, with the
    promotion [prom] written by [suffix]. *)
Definition from_uci_agrees (suffix : string) (prom : option PieceType) (a b : Z) : bool :=
  match square_name a, square_name b with
  | Return na, Return nb =>
      match from_uci ((na ++ nb) ++ suffix) with
      | Return m => negb (a =? b) && move_eqb m (mkMove a b prom None)
      | Raise ValueError => a =? b
      | Raise _ => false
      end
  | _, _ => false
  end.

Definition parse_square_agrees (a : Z) : bool :=
  match square_name a with
  | Return na => match parse_square na with
                 | Return b => a =? b
                 | Raise _ => false
                 end
  | Raise _ => false
  end.

(** ** 8. A reference engine

    A small implementation of the interface, used to run the loop on
    concrete positions: piece placement, side to move, the moves of the
    six pieces with blocking, promotion, and the rule that a move may
    not leave one's own king attacked.  Castling and en passant are
    left out. *)

Module ReferenceEngine.

Record Position : Type := mkPosition {
  squares : list (option Piece);
  side : Color
}.

Definition at_square (p : Position) (sq : Z) : option Piece :=
  if (0 <=? sq) && (sq <? 64) then nth (Z.to_nat sq) (squares p) None else None.

Fixpoint set_nth {A : Type} (n : nat) (v : A) (l : list A) : list A :=
  match l, n with
  | [], _ => []
  | _ :: t, O => v :: t
  | h :: t, S n' => h :: set_nth n' v t
  end.

Definition back_rank (c : Color) : list (option Piece) :=
  map (fun t => Some (mkPiece t c))
      [ROOK; KNIGHT; BISHOP; QUEEN; KING; BISHOP; KNIGHT; ROOK].

Definition start : Position :=
  mkPosition (back_rank WHITE
              ++ repeat (Some (mkPiece PAWN WHITE)) 8
              ++ repeat None 32
              ++ repeat (Some (mkPiece PAWN BLACK)) 8
              ++ back_rank BLACK)
             WHITE.

Definition is_empty (p : Position) (sq : Z) : bool :=
  match at_square p sq with
  | None => true
  | Some _ => false
  end.

Definition held_by (p : Position) (c : Color) (sq : Z) : bool :=
  match at_square p sq with
  | Some pc => Bool.eqb (color pc) c
  | None => false
  end.

(** The [n] squares after [(f, r)] in direction [(df, dr)] are empty. *)
Fixpoint clear_path (p : Position) (f r df dr : Z) (n : nat) : bool :=
  match n with
  | O => true
  | S n' => is_empty p (square (f + df) (r + dr))
            && clear_path p (f + df) (r + dr) df dr n'
  end.

(** The piece [pc] standing on [from] attacks [to]. *)
Definition attacks (p : Position) (pc : Piece) (from to : Z) : bool :=
  let df := square_file to - square_file from in
  let dr := square_rank to - square_rank from in
  let adf := Z.abs df in
  let adr := Z.abs dr in
  let clear := clear_path p (square_file from) (square_rank from)
                          (Z.sgn df) (Z.sgn dr) (Z.to_nat (Z.max adf adr - 1)) in
  let straight := ((df =? 0) || (dr =? 0)) && negb (from =? to) in
  let diagonal := (adf =? adr) && negb (from =? to) in
  match piece_type pc with
  | PAWN => (adf =? 1) && (dr =? (if color pc then 1 else -1))
  | KNIGHT => ((adf =? 1) && (adr =? 2)) || ((adf =? 2) && (adr =? 1))
  | BISHOP => diagonal && clear
  | ROOK => straight && clear
  | QUEEN => (straight || diagonal) && clear
  | KING => Z.max adf adr =? 1
  end.

Definition on_board (sq : Z) : bool := (0 <=? sq) && (sq <? 64).

(** A pawn reaching the first or last rank names a promotion piece;
    no other move does. *)
Definition promotion_ok (pc : Piece) (m : Move) : bool :=
  let last := (square_rank (to_square m) =? 7) || (square_rank (to_square m) =? 0) in
  match promotion m with
  | None => negb (piece_type_eqb (piece_type pc) PAWN && last)
  | Some t => piece_type_eqb (piece_type pc) PAWN && last
              && negb (piece_type_eqb t PAWN) && negb (piece_type_eqb t KING)
  end.

Definition pawn_advance (p : Position) (pc : Piece) (from to : Z) : bool :=
  let fwd := if color pc then 1 else -1 in
  let home := if color pc then 1 else 6 in
  let ff := square_file from in
  let fr := square_rank from in
  let df := square_file to - ff in
  let dr := square_rank to - fr in
  ((df =? 0) && (dr =? fwd) && is_empty p to)
  || ((df =? 0) && (dr =? 2 * fwd) && (fr =? home)
      && is_empty p (square ff (fr + fwd)) && is_empty p to).

Definition pseudo_legal (p : Position) (m : Move) : bool :=
  on_board (from_square m) && on_board (to_square m)
  && match drop m with None => true | Some _ => false end
  && match at_square p (from_square m) with
     | Some pc =>
         Bool.eqb (color pc) (side p)
         && negb (held_by p (side p) (to_square m))
         && promotion_ok pc m
         && match piece_type pc with
            | PAWN => pawn_advance p pc (from_square m) (to_square m)
                      || (attacks p pc (from_square m) (to_square m)
                          && held_by p (negb (color pc)) (to_square m))
            | _ => attacks p pc (from_square m) (to_square m)
            end
     | None => false
     end.

(** [push]: the piece (or what it promotes to) goes to the target
    square, and the turn passes. *)
Definition apply_move (p : Position) (m : Move) : Position :=
  match at_square p (from_square m) with
  | Some pc =>
      let placed := match promotion m with
                    | Some t => mkPiece t (color pc)
                    | None => pc
                    end in
      mkPosition (set_nth (Z.to_nat (to_square m)) (Some placed)
                          (set_nth (Z.to_nat (from_square m)) None (squares p)))
                 (negb (side p))
  | None => mkPosition (squares p) (negb (side p))
  end.

Definition attacked_by (p : Position) (c : Color) (sq : Z) : bool :=
  existsb (fun from => match at_square p from with
                       | Some pc => Bool.eqb (color pc) c && attacks p pc from sq
                       | None => false
                       end) all_squares.

Definition is_king_of (p : Position) (c : Color) (sq : Z) : bool :=
  match at_square p sq with
  | Some pc => piece_type_eqb (piece_type pc) KING && Bool.eqb (color pc) c
  | None => false
  end.

Definition king_attacked (p : Position) (c : Color) : bool :=
  match find (is_king_of p c) all_squares with
  | Some k => attacked_by p (negb c) k
  | None => false
  end.

Definition legal (p : Position) (m : Move) : bool :=
  pseudo_legal p m && negb (king_attacked (apply_move p m) (side p)).

(** Every move a piece standing on [from] could make. *)
Definition moves_from (from : Z) : list Move :=
  flat_map (fun to =>
              map (fun prom => mkMove from to prom None)
                  [None; Some QUEEN; Some ROOK; Some BISHOP; Some KNIGHT])
           all_squares.

Fixpoint some_legal (p : Position) (ms : list Move) : bool :=
  match ms with
  | [] => false
  | m :: rest => if legal p m then true else some_legal p rest
  end.

Fixpoint some_legal_from (p : Position) (froms : list Z) : bool :=
  match froms with
  | [] => false
  | from :: rest =>
      if held_by p (side p) from
      then (if some_legal p (moves_from from) then true else some_legal_from p rest)
      else some_legal_from p rest
  end.

Definition has_legal_move (p : Position) : bool := some_legal_from p all_squares.

Definition in_check (p : Position) : bool := king_attacked p (side p).
Definition checkmate (p : Position) : bool := in_check p && negb (has_legal_move p).
Definition stalemate (p : Position) : bool := negb (in_check p) && negb (has_legal_move p).

Definition engine : RulesEngine := {|
  Board := Position;
  start_board := start;
  piece_at := at_square;
  turn := side;
  is_legal := legal;
  push := apply_move;
  is_checkmate := checkmate;
  is_stalemate := stalemate;
  is_check := in_check
|}.

End ReferenceEngine.

Module ReferenceChecks.
Import ReferenceEngine.

(** No pawn on the first or last rank, as a check over the 64 squares. *)
Definition pawns_off_back_ranks (p : Position) : bool :=
  forallb (fun sq =>
             match at_square p sq with
             | Some pc => negb (piece_type_eqb (piece_type pc) PAWN
                                && ((square_rank sq =? 0) || (square_rank sq =? 7)))
             | None => true
             end) all_squares.

End ReferenceChecks.

(** ** 9. Sample runs of the loop on the reference engine *)

Module Samples.

(** A left click in the middle of the cell [(col, row)]. *)
Definition click (col row : Z) : Event :=
  MOUSEBUTTONDOWN (col * SQUARE_SIZE + 40, row * SQUARE_SIZE + 40) 1.

Definition play (events : list Event) : Env (E := ReferenceEngine.engine) :=
  snd (handle_events (E := ReferenceEngine.engine) events initial_env).

(** The pawn on e2 is selected. *)
Definition e2_selected : Env (E := ReferenceEngine.engine) := play [click 4 6].

(** 1. a4 b5 2. axb5 a6 3. bxa6 Bb7 4. axb7 h6, and the pawn on b7
    is selected: it can take the rook on a8. *)
Definition b7_pawn_selected : Env (E := ReferenceEngine.engine) :=
  play [click 0 6; click 0 4; click 1 1; click 1 3;
        click 0 4; click 1 3; click 0 1; click 0 2;
        click 1 3; click 0 2; click 2 0; click 1 1;
        click 0 2; click 1 1; click 7 1; click 7 2;
        click 1 1].

(** 1. f3 e5 2. g4 Qh4: white is checkmated. *)
Definition fools_mate : Env (E := ReferenceEngine.engine) :=
  play [click 5 6; click 5 5; click 4 1; click 4 3;
        click 6 6; click 6 4; click 3 0; click 7 4].

End Samples.

(** ** 10. Assets and drawing (chess.py, lines 21-89 and 151-178) *)

(** A Python dict with string keys: insertion ordered, one entry per
    key; assignment to a present key replaces the value in place. *)
Definition dict (V : Type) : Type := list (string * V).

Fixpoint dict_get {V : Type} (d : dict V) (k : string) : option V :=
  match d with
  | [] => None
  | (k', v) :: rest => if String.eqb k' k then Some v else dict_get rest k
  end.

Fixpoint dict_set {V : Type} (d : dict V) (k : string) (v : V) : dict V :=
  match d with
  | [] => [(k, v)]
  | (k', v') :: rest =>
      if String.eqb k' k then (k, v) :: rest else (k', v') :: dict_set rest k v
  end.

(** [k in d]. *)
Definition dict_mem {V : Type} (d : dict V) (k : string) : bool :=
  match dict_get d k with
  | Some _ => true
  | None => false
  end.

(** Lines 21-24. *)
Definition PIECE_IMAGE_KEYS : dict string :=
  [("p", "bP"); ("n", "bN"); ("b", "bB"); ("r", "bR"); ("q", "bQ"); ("k", "bK");
   ("P", "wP"); ("N", "wN"); ("B", "wB"); ("R", "wR"); ("Q", "wQ"); ("K", "wK")].

Definition RGB : Type := (Z * Z * Z)%type.
Definition RGBA : Type := (Z * Z * Z * Z)%type.

(** The surfaces the program makes, by how they are made. *)
Inductive Surface : Type :=
| Filled (size : Z * Z) (color : RGB)
    (** [pygame.Surface(size)] then [.fill(color)] *)
| Scaled (path : string) (size : Z * Z)
    (** [pygame.transform.scale(pygame.image.load(path).convert_alpha(), size)] *)
| Overlay (size : Z * Z) (color : RGBA)
    (** [pygame.Surface(size, pygame.SRCALPHA)] then [.fill(color)] *)
| Rendered (text : string) (color : RGB).
    (** [font.render(text, True, color)] *)

(** What [pygame.image.load(path).convert_alpha()] does: it gives an
    image, raises [pygame.error], or raises something else. *)
Inductive LoadResult : Type :=
| Loaded
| RaisesPygameError
| RaisesOther.

(** [os.path.join] of two relative parts, with the POSIX separator. *)
Definition os_path_join (a b : string) : string := a ++ "/" ++ b.

Section Assets.

(** [os.path.isdir('assets')] and the image files, as the program finds
    them. *)
Variable isdir_assets : bool.
Variable image_load : string -> LoadResult.

(** Lines 35-37: [for name in PIECE_IMAGE_KEYS.values()]. *)
Fixpoint fill_placeholders (names : list string) (pieces : dict Surface)
  : dict Surface :=
  match names with
  | [] => pieces
  | name :: rest =>
      fill_placeholders rest
        (dict_set pieces name (Filled (SQUARE_SIZE, SQUARE_SIZE) (150, 150, 150)))
  end.

Definition img_path_of (name : string) : string :=
  os_path_join "assets" (name ++ ".png").

Definition warning_of (name : string) : string :=
  "Warning: Could not load image " ++ name ++ ".png from assets folder.".

(** Lines 40-49: [for key, name in PIECE_IMAGE_KEYS.items()], with the
    lines printed so far.  Only [pygame.error] is caught: any other
    exception leaves [load_pieces] ([None]). *)
Fixpoint load_each (items : list (string * string)) (pieces : dict Surface)
         (printed : list string) : list string * option (dict Surface) :=
  match items with
  | [] => (printed, Some pieces)
  | (key, name) :: rest =>
      let img_path := img_path_of name in
      match image_load img_path with
      | Loaded =>
          load_each rest
            (dict_set pieces name (Scaled img_path (SQUARE_SIZE, SQUARE_SIZE)))
            printed
      | RaisesPygameError =>
          load_each rest
            (dict_set pieces name (Filled (SQUARE_SIZE, SQUARE_SIZE) (200, 0, 0)))
            (printed ++ [warning_of name])
      | RaisesOther => (printed, None)
      end
  end.

(** Lines 26-51: what is printed, and the dict returned. *)
Definition load_pieces : list string * option (dict Surface) :=
  if negb isdir_assets then
    (["Error: 'assets' folder not found.";
      "Please create an 'assets' folder with images (wP.png, bK.png, etc.)."],
     Some (fill_placeholders (map snd PIECE_IMAGE_KEYS) []))
  else load_each PIECE_IMAGE_KEYS [] [].

End Assets.

(** Every piece has an image: its symbol has a non-empty key in
    [PIECE_IMAGE_KEYS] and the key is in the dict. *)
Definition has_all_images (PIECES : dict Surface) : Prop :=
  forall p : Piece,
    exists image_key s,
      dict_get PIECE_IMAGE_KEYS (symbol p) = Some image_key /\
      image_key <> "" /\
      dict_get PIECES image_key = Some s.

(** Calls made on the screen, oldest first. *)
Inductive DrawOp : Type :=
| Fill (color : RGB)
    (** [screen.fill(color)] *)
| DrawRect (color : RGB) (rect : Z * Z * Z * Z)
    (** [pygame.draw.rect(screen, color, rect)] *)
| Blit (source : Surface) (dest : Z * Z)
    (** [screen.blit(source, dest)] *)
| Flip.
    (** [pygame.display.flip()] *)

Definition LIGHT_SQUARE_COLOR : RGB := (240, 217, 181).
Definition DARK_SQUARE_COLOR : RGB := (181, 136, 99).

(** [range(8)]. *)
Definition range8 : list Z := map Z.of_nat (seq 0 8).

(** Lines 85-89. *)
Definition highlight_square (col row : Z) (color : RGBA) : list DrawOp :=
  let s := Overlay (SQUARE_SIZE, SQUARE_SIZE) color in
  [Blit s (col * SQUARE_SIZE, row * SQUARE_SIZE)].

(** A move the program can push: no drop, promotion to the queen or
    none, two different squares of the board. *)
Definition plain_or_queen (m : Move) : Prop :=
  (promotion m = None \/ promotion m = Some QUEEN) /\
  drop m = None /\
  from_square m <> to_square m /\
  0 <= from_square m < 64 /\ 0 <= to_square m < 64.

Definition is_quit (event : Event) : bool :=
  match event with
  | QUIT => true
  | _ => false
  end.

Section Drawing.

Context {E : RulesEngine}.

(** The global [PIECES = load_pieces()]. *)
Variable PIECES : dict Surface.

(** Lines 66-83: the body of the two loops of [draw_board]. *)
Definition draw_cell (board : Board) (row col : Z) : list DrawOp :=
  let color := if (row + col) mod 2 =? 0
               then LIGHT_SQUARE_COLOR else DARK_SQUARE_COLOR in
  DrawRect color (col * SQUARE_SIZE, row * SQUARE_SIZE, SQUARE_SIZE, SQUARE_SIZE)
  :: (let square_index := square col (7 - row) in
      match piece_at board square_index with
      | Some piece =>
          match dict_get PIECE_IMAGE_KEYS (symbol piece) with
          | Some image_key =>
              if negb (String.eqb image_key "") && dict_mem PIECES image_key
              then match dict_get PIECES image_key with
                   | Some s => [Blit s (col * SQUARE_SIZE, row * SQUARE_SIZE)]
                   | None => []
                   end
              else []
          | None => []
          end
      | None => []
      end).

(** Lines 57-83. *)
Definition draw_board (board : Board) : list DrawOp :=
  flat_map (fun row => flat_map (fun col => draw_cell board row col) range8) range8.

(** Lines 152-178: what one iteration of the loop draws. *)
Definition draw_frame (env : Env) : list DrawOp :=
  [Fill (40, 40, 40)]
  ++ draw_board (game_board env)
  ++ (match selected_square_coords env with
      | Some (col, row) => highlight_square col row (255, 255, 0, 150)
      | None => []
      end)
  ++ [Blit (Rendered (status_text (game_board env)) (255, 255, 255))
           (BOARD_SIZE + 20, 20);
      Flip].

End Drawing.

(** ** 11. More samples *)

Module MoreSamples.

(** The game of [Samples.b7_pawn_selected], and the pawn takes on a8. *)
Definition promoted : Env (E := ReferenceEngine.engine) :=
  Samples.play [Samples.click 0 6; Samples.click 0 4; Samples.click 1 1; Samples.click 1 3;
                Samples.click 0 4; Samples.click 1 3; Samples.click 0 1; Samples.click 0 2;
                Samples.click 1 3; Samples.click 0 2; Samples.click 2 0; Samples.click 1 1;
                Samples.click 0 2; Samples.click 1 1; Samples.click 7 1; Samples.click 7 2;
                Samples.click 1 1; Samples.click 0 0].

(** The image of the white pawn cannot be decoded; the others load. *)
Definition white_pawn_broken (path : string) : LoadResult :=
  if String.eqb path "assets/wP.png" then RaisesPygameError else Loaded.

(** The file of the black king is missing: [FileNotFoundError]. *)
Definition black_king_missing (path : string) : LoadResult :=
  if String.eqb path "assets/bK.png" then RaisesOther else Loaded.

(** The pieces when there is no [assets] folder. *)
Definition grey_pieces : dict Surface :=
  fill_placeholders (map snd PIECE_IMAGE_KEYS) [].

End MoreSamples.

(** * Properties *)

(** ** The table of square names *)

Lemma in_all_squares (a : Z) : 0 <= a < 64 -> In a all_squares.
Proof.
  intros H. unfold all_squares.
  replace a with (Z.of_nat (Z.to_nat a)) by lia.
  apply in_map, in_seq. lia.
Qed.

Lemma move_eqb_eq (m1 m2 : Move) : move_eqb m1 m2 = true -> m1 = m2.
Proof.
  destruct m1 as [f1 t1 p1 d1], m2 as [f2 t2 p2 d2]. unfold move_eqb; simpl.
  intros H.
  repeat (apply andb_prop in H; destruct H as [H ?]).
  apply Z.eqb_eq in H. subst f2.
  match goal with H : (t1 =? t2) = true |- _ => apply Z.eqb_eq in H; subst t2 end.
  assert (Hopt : forall a b : option PieceType,
             match a, b with
             | Some x, Some y => piece_type_eqb x y
             | None, None => true
             | _, _ => false
             end = true -> a = b).
  { intros [[]|] [[]|]; simpl; congruence. }
  f_equal; apply Hopt; assumption.
Qed.

Lemma from_uci_agrees_plain :
  forallb (fun a => forallb (from_uci_agrees "" None a) all_squares) all_squares = true.
Proof. vm_compute. reflexivity. Qed.

Lemma from_uci_agrees_queen :
  forallb (fun a => forallb (from_uci_agrees "q" (Some QUEEN) a) all_squares) all_squares = true.
Proof. vm_compute. reflexivity. Qed.

Lemma parse_square_agrees_all : forallb parse_square_agrees all_squares = true.
Proof. vm_compute. reflexivity. Qed.

(** Every square from 0 to 63 has a name. *)
Lemma square_name_defined (a : Z) :
  0 <= a < 64 -> exists na, square_name a = Return na.
Proof.
  intros Ha.
  pose proof (proj1 (forallb_forall _ _) parse_square_agrees_all a (in_all_squares a Ha)) as H.
  unfold parse_square_agrees in H.
  destruct (square_name a) as [na|]; [eauto | discriminate].
Qed.

(** [parse_square] undoes [square_name]. *)
Lemma parse_square_square_name (a : Z) (na : string) :
  0 <= a < 64 -> square_name a = Return na -> parse_square na = Return a.
Proof.
  intros Ha Hn.
  pose proof (proj1 (forallb_forall _ _) parse_square_agrees_all a (in_all_squares a Ha)) as H.
  unfold parse_square_agrees in H. rewrite Hn in H.
  destruct (parse_square na) as [b|]; [|discriminate].
  apply Z.eqb_eq in H. congruence.
Qed.

Lemma from_uci_suffix (suffix : string) (prom : option PieceType) :
  forallb (fun a => forallb (from_uci_agrees suffix prom a) all_squares) all_squares = true ->
  forall a b na nb,
    0 <= a < 64 -> 0 <= b < 64 ->
    square_name a = Return na -> square_name b = Return nb ->
    from_uci ((na ++ nb) ++ suffix) =
      if a =? b then Raise ValueError else Return (mkMove a b prom None).
Proof.
  intros Hall a b na nb Ha Hb Hna Hnb.
  pose proof (proj1 (forallb_forall _ _) Hall a (in_all_squares a Ha)) as H1.
  pose proof (proj1 (forallb_forall _ _) H1 b (in_all_squares b Hb)) as H.
  unfold from_uci_agrees in H. rewrite Hna, Hnb in H.
  destruct (from_uci ((na ++ nb) ++ suffix)) as [m|[]]; try discriminate.
  - apply andb_prop in H. destruct H as [Hne Hm].
    apply move_eqb_eq in Hm. apply negb_true_iff in Hne. rewrite Hne. congruence.
  - rewrite H. reflexivity.
Qed.

(** Two square names put together parse to the move between the two
    squares, unless the squares are the same. *)
Lemma from_uci_names (a b : Z) (na nb : string) :
  0 <= a < 64 -> 0 <= b < 64 ->
  square_name a = Return na -> square_name b = Return nb ->
  from_uci (na ++ nb) =
    if a =? b then Raise ValueError else Return (mkMove a b None None).
Proof.
  intros Ha Hb Hna Hnb.
  pose proof (from_uci_suffix "" None from_uci_agrees_plain a b na nb Ha Hb Hna Hnb) as H.
  assert (Hnil : forall s : string, (s ++ "")%string = s).
  { induction s as [|c s IH]; simpl; [reflexivity | now rewrite IH]. }
  now rewrite Hnil in H.
Qed.

Lemma from_uci_names_q (a b : Z) (na nb : string) :
  0 <= a < 64 -> 0 <= b < 64 ->
  square_name a = Return na -> square_name b = Return nb ->
  from_uci ((na ++ nb) ++ "q") =
    if a =? b then Raise ValueError else Return (mkMove a b (Some QUEEN) None).
Proof. apply from_uci_suffix. exact from_uci_agrees_queen. Qed.

(** ** Coordinates *)

Lemma square_file_mod (sq : Z) : square_file sq = sq mod 8.
Proof. unfold square_file. change 7 with (Z.ones 3). now rewrite Z.land_ones by lia. Qed.

Lemma square_rank_div (sq : Z) : square_rank sq = sq / 8.
Proof. unfold square_rank. now rewrite Z.shiftr_div_pow2 by lia. Qed.

Lemma square_file_square (f r : Z) : 0 <= f < 8 -> square_file (square f r) = f.
Proof.
  intros Hf. rewrite square_file_mod. unfold square.
  rewrite Z.add_comm, Z_mod_plus_full. apply Z.mod_small. lia.
Qed.

Lemma square_rank_square (f r : Z) : 0 <= f < 8 -> square_rank (square f r) = r.
Proof.
  intros Hf. rewrite square_rank_div. unfold square.
  rewrite Z.add_comm, Z_div_plus_full by lia.
  rewrite Z.div_small by lia. lia.
Qed.

Lemma in_board_bounds (c : Cell) :
  in_board c = true <-> (0 <= fst c < 8 /\ 0 <= snd c < 8).
Proof. unfold in_board. rewrite !andb_true_iff, !Z.leb_le, !Z.ltb_lt. lia. Qed.

Lemma cell_to_square_id_bounds (c : Cell) :
  in_board c = true -> 0 <= cell_to_square_id c < 64.
Proof.
  rewrite in_board_bounds. unfold cell_to_square_id, square. lia.
Qed.

Lemma cell_to_square_id_inj (c d : Cell) :
  in_board c = true -> in_board d = true ->
  cell_to_square_id c = cell_to_square_id d -> c = d.
Proof.
  rewrite !in_board_bounds. destruct c as [c1 c2], d as [d1 d2].
  unfold cell_to_square_id, square; cbn [fst snd]. intros Hc Hd Heq.
  f_equal; lia.
Qed.

(** The other direction: a square from 0 to 63 lies on the board and
    is the square of its cell. *)
Lemma cell_to_square_id_to_cell (sq : Z) :
  0 <= sq < 64 ->
  in_board (square_id_to_cell sq) = true /\
  cell_to_square_id (square_id_to_cell sq) = sq.
Proof.
  intros Hsq. unfold square_id_to_cell, cell_to_square_id.
  rewrite square_file_mod, square_rank_div. unfold square. cbn [fst snd].
  pose proof (Z.mod_pos_bound sq 8 ltac:(lia)).
  pose proof (Z.div_mod sq 8 ltac:(lia)).
  assert (0 <= sq / 8 < 8).
  { split; [apply Z.div_pos; lia | apply Z.div_lt_upper_bound; lia]. }
  split; [apply in_board_bounds; cbn [fst snd]; lia | lia].
Qed.

(** A piece drawn at the pixel origin of a cell is clicked anywhere
    inside that cell's 80 by 80 square. *)
Lemma pixel_to_cell_inside (col row dx dy : Z) :
  0 <= dx < SQUARE_SIZE -> 0 <= dy < SQUARE_SIZE ->
  pixel_to_cell (col * SQUARE_SIZE + dx, row * SQUARE_SIZE + dy) = (col, row).
Proof.
  unfold pixel_to_cell, SQUARE_SIZE; cbn [fst snd]. intros Hx Hy.
  f_equal.
  - rewrite Z.add_comm, Z_div_plus_full by lia. rewrite Z.div_small; lia.
  - rewrite Z.add_comm, Z_div_plus_full by lia. rewrite Z.div_small; lia.
Qed.

(** C3: on the cells [0,7] x [0,7], mapping a cell to its engine square
    (file = column, rank = 7 - row) and the square back to a cell gives
    the cell again. *)
Theorem coordinate_round_trip (column row : Z) :
  0 <= column <= 7 -> 0 <= row <= 7 ->
  square_id_to_cell (cell_to_square_id (column, row)) = (column, row) /\
  square_file (cell_to_square_id (column, row)) = column /\
  square_rank (cell_to_square_id (column, row)) = 7 - row /\
  0 <= cell_to_square_id (column, row) <= 63.
Proof.
  intros Hc Hr. unfold square_id_to_cell, cell_to_square_id. cbn [fst snd].
  rewrite square_file_square, square_rank_square by lia.
  repeat split; try (f_equal; lia); unfold square; lia.
Qed.

Lemma coordinate_round_trip_witness :
  square_id_to_cell (cell_to_square_id (4, 6)) = (4, 6) /\
  square_file (cell_to_square_id (4, 6)) = 4 /\
  square_rank (cell_to_square_id (4, 6)) = 7 - 6 /\
  0 <= cell_to_square_id (4, 6) <= 63.
Proof. apply (coordinate_round_trip 4 6); lia. Defined.

(** ** Running the click handler *)

Section HandlerFacts.

Context {E : RulesEngine}.

Lemma add_calls_app (env : Env) (cs ds : list Call) :
  add_calls (add_calls env cs) ds = add_calls env (cs ++ ds).
Proof. unfold add_calls; simpl. now rewrite app_assoc. Qed.

(** The move builder on two cells of the board, the first of which
    holds a piece: the two squares must differ; a pawn headed for
    rank 7 or 0 has [q] appended and is parsed again. *)
Lemma candidate_run (env : Env) (origin cell : Cell) (p : Piece) :
  in_board origin = true -> in_board cell = true ->
  piece_at (game_board env) (cell_to_square_id origin) = Some p ->
  exists na nb,
    square_name (cell_to_square_id origin) = Return na /\
    square_name (cell_to_square_id cell) = Return nb /\
    candidate origin cell env =
      if cell_to_square_id origin =? cell_to_square_id cell
      then (Raise ValueError, add_calls env [Call_from_uci (na ++ nb)])
      else if piece_type_eqb (piece_type p) PAWN
              && ((square_rank (cell_to_square_id cell) =? 7)
                  || (square_rank (cell_to_square_id cell) =? 0))
           then (Return (mkMove (cell_to_square_id origin) (cell_to_square_id cell)
                                (Some QUEEN) None),
                 add_calls env [Call_from_uci (na ++ nb);
                                Call_piece_at (cell_to_square_id origin);
                                Call_from_uci ((na ++ nb) ++ "q")])
           else (Return (mkMove (cell_to_square_id origin) (cell_to_square_id cell)
                                None None),
                 add_calls env [Call_from_uci (na ++ nb);
                                Call_piece_at (cell_to_square_id origin)]).
Proof.
  intros Ho Hc Hp.
  pose proof (cell_to_square_id_bounds _ Ho) as Ha.
  pose proof (cell_to_square_id_bounds _ Hc) as Hb.
  destruct (square_name_defined _ Ha) as [na Hna].
  destruct (square_name_defined _ Hb) as [nb Hnb].
  exists na, nb. split; [assumption|]. split; [assumption|].
  unfold candidate, bind, lift. rewrite Hna, Hnb.
  unfold build_move, Move_from_uci, bind, log, lift.
  rewrite (from_uci_names _ _ _ _ Ha Hb Hna Hnb).
  destruct (cell_to_square_id origin =? cell_to_square_id cell) eqn:Heq; [reflexivity|].
  unfold board_piece_at, bind, log. cbn [from_square to_square game_board add_calls].
  rewrite Hp. cbn [attr_piece_type ret].
  destruct (piece_type_eqb (piece_type p) PAWN
            && ((square_rank (cell_to_square_id cell) =? 7)
                || (square_rank (cell_to_square_id cell) =? 0))).
  - rewrite (from_uci_names_q _ _ _ _ Ha Hb Hna Hnb), Heq.
    unfold add_calls; cbn. rewrite <- !app_assoc. reflexivity.
  - unfold add_calls; cbn. rewrite <- !app_assoc. reflexivity.
Qed.

(** The second click, in terms of the move builder: a candidate is
    asked for legality and pushed when legal; [ValueError] is
    swallowed; in both cases the selection is reset.  Any other
    exception leaves the handler. *)
Lemma second_click_run (env : Env) (sel cell : Cell) (nb : string) :
  in_board sel = true ->
  square_name (cell_to_square_id cell) = Return nb ->
  second_click sel nb env =
    match candidate sel cell env with
    | (Return m, env1) =>
        if is_legal (game_board env1) m
        then (Return tt,
              mkEnv (push (game_board env1) m) (running env1) None
                    (calls env1 ++ [Call_legal_moves_contains m; Call_push m]))
        else (Return tt,
              mkEnv (game_board env1) (running env1) None
                    (calls env1 ++ [Call_legal_moves_contains m]))
    | (Raise ValueError, env1) =>
        (Return tt, mkEnv (game_board env1) (running env1) None (calls env1))
    | (Raise e, env1) => (Raise e, env1)
    end.
Proof.
  intros Hs Hnb.
  destruct (square_name_defined _ (cell_to_square_id_bounds _ Hs)) as [na Hna].
  destruct sel as [start_col start_row].
  unfold second_click, candidate, bind, lift. rewrite Hnb, Hna.
  unfold cell_to_square_id in Hna; cbn [fst snd] in Hna. rewrite Hna.
  unfold try_except_ValueError, attempt_move, bind.
  destruct (build_move (na ++ nb) env) as [[m|[]] env1]; try reflexivity.
  unfold board_legal_moves_contains, bind, log. cbn [game_board add_calls].
  destruct (is_legal (game_board env1) m).
  - unfold board_push, bind, log, set_selected_square_coords, add_calls; cbn.
    rewrite <- app_assoc. reflexivity.
  - unfold ret, set_selected_square_coords, add_calls; cbn. reflexivity.
Qed.

(** The first click: one query of the clicked square, and the
    selection is set when the piece there is of the side to move. *)
Lemma first_click_run (env : Env) (cell : Cell) (nb : string) :
  in_board cell = true ->
  square_name (cell_to_square_id cell) = Return nb ->
  first_click cell nb env =
    (Return tt,
     mkEnv (game_board env) (running env)
           (match piece_at (game_board env) (cell_to_square_id cell) with
            | Some p => if Bool.eqb (color p) (turn (game_board env))
                        then Some cell else selected_square_coords env
            | None => selected_square_coords env
            end)
           (calls env ++ [Call_piece_at (cell_to_square_id cell)])).
Proof.
  intros Hc Hnb.
  unfold first_click, bind, lift.
  rewrite (parse_square_square_name _ _ (cell_to_square_id_bounds _ Hc) Hnb).
  unfold board_piece_at, bind, log. cbn [game_board add_calls].
  destruct (piece_at (game_board env) (cell_to_square_id cell)) as [p|]; [|reflexivity].
  unfold board_turn, bind, add_calls. cbn [game_board].
  destruct (Bool.eqb (color p) (turn (game_board env))); reflexivity.
Qed.

Lemma left_click_run (env : Env) (pos : Z * Z) :
  in_board (pixel_to_cell pos) = true ->
  exists nb,
    square_name (cell_to_square_id (pixel_to_cell pos)) = Return nb /\
    left_click pos env =
      match selected_square_coords env with
      | Some sel => second_click sel nb env
      | None => first_click (pixel_to_cell pos) nb env
      end.
Proof.
  intros Hc.
  destruct (square_name_defined _ (cell_to_square_id_bounds _ Hc)) as [nb Hnb].
  exists nb. split; [assumption|].
  destruct pos as [x y]. unfold left_click.
  unfold in_board, pixel_to_cell in Hc; cbn [fst snd] in Hc. rewrite Hc.
  unfold bind, lift, get_selected_square_coords.
  unfold cell_to_square_id, pixel_to_cell in Hnb; cbn [fst snd] in Hnb. rewrite Hnb.
  destruct (selected_square_coords env); reflexivity.
Qed.

Lemma handle_left_click (env : Env) (pos : Z * Z) :
  handle_event (MOUSEBUTTONDOWN pos 1) env = left_click pos env.
Proof. reflexivity. Qed.

(** Under the invariant the second click returns, resets the
    selection, and leaves the board alone or pushes a legal move. *)
Lemma second_click_returns (env : Env) (origin cell : Cell) (nb : string) :
  selection_invariant env ->
  selected_square_coords env = Some origin ->
  in_board cell = true ->
  square_name (cell_to_square_id cell) = Return nb ->
  exists env',
    second_click origin nb env = (Return tt, env') /\
    selected_square_coords env' = None /\
    running env' = running env /\
    (game_board env' = game_board env \/
     exists m, is_legal (game_board env) m = true /\
               game_board env' = push (game_board env) m).
Proof.
  intros Hinv Hsel Hc Hnb.
  destruct (Hinv _ Hsel) as [Ho [p [Hp _]]].
  rewrite (second_click_run env origin cell nb Ho Hnb).
  destruct (candidate_run env origin cell p Ho Hc Hp) as [na [nb' [_ [_ Hcand]]]].
  rewrite Hcand.
  destruct (cell_to_square_id origin =? cell_to_square_id cell).
  - eexists; repeat split; cbn; auto.
  - destruct (piece_type_eqb (piece_type p) PAWN && _); cbn [game_board add_calls];
      match goal with
      | |- context [is_legal ?b ?m] =>
          destruct (is_legal b m) eqn:Hlegal
      end;
      eexists; repeat split; cbn; eauto.
Qed.

(** Under the invariant every event is handled without an exception,
    and the invariant holds again afterwards. *)
Lemma handle_event_returns (env : Env) (event : Event) :
  selection_invariant env ->
  exists env',
    handle_event event env = (Return tt, env') /\
    selection_invariant env' /\
    (game_board env' = game_board env \/
     exists m, is_legal (game_board env) m = true /\
               game_board env' = push (game_board env) m).
Proof.
  intros Hinv.
  assert (Hsame : exists env', (Return tt, env) = (Return tt, env') /\
                    selection_invariant env' /\
                    (game_board env' = game_board env \/
                     exists m, is_legal (game_board env) m = true /\
                               game_board env' = push (game_board env) m)).
  { exists env. auto. }
  destruct event as [|pos button|? ?|?|?|?|?]; try exact Hsame.
  - eexists. split; [reflexivity|]. split; [|left; reflexivity].
    intros c Hc. exact (Hinv c Hc).
  - unfold handle_event, bind, ret.
    destruct (button =? 1) eqn:Hb; [|exact Hsame].
    destruct pos as [x y]. unfold left_click.
    destruct (((0 <=? x / SQUARE_SIZE) && (x / SQUARE_SIZE <? 8))
              && ((0 <=? y / SQUARE_SIZE) && (y / SQUARE_SIZE <? 8))) eqn:Hin;
      [|exact Hsame].
    change (in_board (pixel_to_cell (x, y)) = true) in Hin.
    destruct (square_name_defined _ (cell_to_square_id_bounds _ Hin)) as [nb Hnb].
    unfold bind, lift, get_selected_square_coords.
    pose proof Hnb as Hnb'.
    unfold cell_to_square_id, pixel_to_cell in Hnb'; cbn [fst snd] in Hnb'.
    rewrite Hnb'.
    destruct (selected_square_coords env) as [origin|] eqn:Hsel.
    + destruct (second_click_returns env origin _ nb Hinv Hsel Hin Hnb)
        as [env' [Hrun [Hnone [_ Hboard]]]].
      exists env'. split; [exact Hrun|]. split; [|exact Hboard].
      intros c Hc. congruence.
    + change (x / SQUARE_SIZE, y / SQUARE_SIZE) with (pixel_to_cell (x, y)).
      rewrite (first_click_run env _ nb Hin Hnb).
      eexists. split; [reflexivity|]. split; [|left; reflexivity].
      intros c. cbn [selected_square_coords game_board].
      destruct (piece_at (game_board env) (cell_to_square_id (pixel_to_cell (x, y))))
        as [p|] eqn:Hp; [|rewrite Hsel; discriminate].
      destruct (Bool.eqb (color p) (turn (game_board env))) eqn:Hcol;
        [|rewrite Hsel; discriminate].
      intros Hc. injection Hc as <-.
      split; [exact Hin|]. exists p. split; [exact Hp|].
      now apply Bool.eqb_prop.
Qed.

Lemma initial_selection_invariant : selection_invariant initial_env.
Proof. intros c Hc. discriminate. Qed.

(** The selection invariant holds in every state of the loop. *)
Lemma reachable_selection_invariant (env : Env) :
  reachable env -> selection_invariant env.
Proof.
  induction 1 as [|env env' event _ IH Hstep].
  - exact initial_selection_invariant.
  - destruct (handle_event_returns env event IH) as [env'' [Hrun [Hinv _]]].
    assert (env'' = env') by congruence. now subst env''.
Qed.

(** Boards of the loop are reached from the starting position by
    legal moves, so a property of positions kept by legal moves holds
    of all of them. *)
Lemma reachable_board_property (P : Board -> Prop) (env : Env) :
  P start_board ->
  (forall b m, P b -> is_legal b m = true -> P (push b m)) ->
  reachable env -> P (game_board env).
Proof.
  intros Hstart Hpush. induction 1 as [|env env' event Hreach IH Hstep].
  - exact Hstart.
  - destruct (handle_event_returns env event (reachable_selection_invariant _ Hreach))
      as [env'' [Hrun [_ Hboard]]].
    assert (env'' = env') by congruence. subst env''.
    destruct Hboard as [-> | [m [Hlegal ->]]]; auto.
Qed.

(** The loop never stops on an exception: every list of frames is
    run to a list of status lines. *)
Lemma handle_events_returns (events : list Event) (env : Env) :
  reachable env ->
  exists env', handle_events events env = (Return tt, env') /\ reachable env'.
Proof.
  revert env. induction events as [|event rest IH]; intros env Hreach.
  - exists env. split; [reflexivity | assumption].
  - destruct (handle_event_returns env event (reachable_selection_invariant _ Hreach))
      as [env1 [Hrun _]].
    destruct (IH env1 (reachable_event _ _ _ Hreach Hrun)) as [env' [Hrest Hreach']].
    exists env'. split; [|assumption].
    cbn [handle_events]. unfold bind. rewrite Hrun. exact Hrest.
Qed.

Lemma reachable_handle_events (events : list Event) (env env' : Env) :
  reachable env -> handle_events events env = (Return tt, env') -> reachable env'.
Proof.
  intros Hreach Hrun.
  destruct (handle_events_returns events env Hreach) as [env'' [Hrun' Hreach']].
  assert (env'' = env') by congruence. now subst env''.
Qed.

(** A left click on the board with a cell selected, in terms of the
    move builder. *)
Lemma handle_second_click (env : Env) (origin : Cell) (pos : Z * Z) :
  in_board origin = true ->
  selected_square_coords env = Some origin ->
  in_board (pixel_to_cell pos) = true ->
  handle_event (MOUSEBUTTONDOWN pos 1) env =
    match candidate origin (pixel_to_cell pos) env with
    | (Return m, env1) =>
        if is_legal (game_board env1) m
        then (Return tt,
              mkEnv (push (game_board env1) m) (running env1) None
                    (calls env1 ++ [Call_legal_moves_contains m; Call_push m]))
        else (Return tt,
              mkEnv (game_board env1) (running env1) None
                    (calls env1 ++ [Call_legal_moves_contains m]))
    | (Raise ValueError, env1) =>
        (Return tt, mkEnv (game_board env1) (running env1) None (calls env1))
    | (Raise e, env1) => (Raise e, env1)
    end.
Proof.
  intros Ho Hsel Hc. rewrite handle_left_click.
  destruct (left_click_run env pos Hc) as [nb [Hnb ->]]. rewrite Hsel.
  now apply second_click_run.
Qed.

(** A left click on the board with nothing selected. *)
Lemma handle_first_click (env : Env) (pos : Z * Z) :
  selected_square_coords env = None ->
  in_board (pixel_to_cell pos) = true ->
  handle_event (MOUSEBUTTONDOWN pos 1) env =
    (Return tt,
     mkEnv (game_board env) (running env)
           (match piece_at (game_board env) (cell_to_square_id (pixel_to_cell pos)) with
            | Some p => if Bool.eqb (color p) (turn (game_board env))
                        then Some (pixel_to_cell pos) else None
            | None => None
            end)
           (calls env ++ [Call_piece_at (cell_to_square_id (pixel_to_cell pos))])).
Proof.
  intros Hsel Hc. rewrite handle_left_click.
  destruct (left_click_run env pos Hc) as [nb [Hnb ->]]. rewrite Hsel.
  rewrite (first_click_run env _ nb Hc Hnb), Hsel. reflexivity.
Qed.

(** The move builder changes nothing but the call log, and pushes
    nothing. *)
Lemma candidate_frame (env env1 : Env) (origin cell : Cell) (p : Piece) (r : Outcome Move) :
  in_board origin = true -> in_board cell = true ->
  piece_at (game_board env) (cell_to_square_id origin) = Some p ->
  candidate origin cell env = (r, env1) ->
  exists cs, env1 = add_calls env cs /\ forall m, ~ In (Call_push m) cs.
Proof.
  intros Ho Hc Hp Hrun.
  destruct (candidate_run env origin cell p Ho Hc Hp) as [na [nb [_ [_ Hcand]]]].
  rewrite Hcand in Hrun.
  destruct (cell_to_square_id origin =? cell_to_square_id cell);
    [|destruct (piece_type_eqb (piece_type p) PAWN && _)];
    injection Hrun as _ <-; eexists; (split; [reflexivity|]);
    intros m Hin; cbn in Hin; intuition discriminate.
Qed.

(** The same cell twice makes no move: [from_uci] rejects it before
    the board is looked at. *)
Lemma candidate_same_cell (env : Env) (origin : Cell) :
  in_board origin = true ->
  exists na,
    square_name (cell_to_square_id origin) = Return na /\
    candidate origin origin env
    = (Raise ValueError, add_calls env [Call_from_uci (na ++ na)]).
Proof.
  intros Ho. pose proof (cell_to_square_id_bounds _ Ho) as Ha.
  destruct (square_name_defined _ Ha) as [na Hna].
  exists na. split; [assumption|].
  unfold candidate, bind, lift. rewrite Hna.
  unfold build_move, Move_from_uci, bind, log, lift.
  rewrite (from_uci_names _ _ _ _ Ha Ha Hna Hna), Z.eqb_refl. reflexivity.
Qed.

(** A pawn sent to rank 7 or 0 from another square gets the queen. *)
Lemma candidate_pawn_last_rank (env : Env) (origin cell : Cell) (p : Piece) :
  in_board origin = true -> in_board cell = true ->
  piece_at (game_board env) (cell_to_square_id origin) = Some p ->
  piece_type p = PAWN ->
  square_rank (cell_to_square_id cell) = 7 \/ square_rank (cell_to_square_id cell) = 0 ->
  cell_to_square_id origin <> cell_to_square_id cell ->
  exists na nb,
    square_name (cell_to_square_id origin) = Return na /\
    square_name (cell_to_square_id cell) = Return nb /\
    candidate origin cell env =
      (Return (mkMove (cell_to_square_id origin) (cell_to_square_id cell)
                      (Some QUEEN) None),
       add_calls env [Call_from_uci (na ++ nb);
                      Call_piece_at (cell_to_square_id origin);
                      Call_from_uci ((na ++ nb) ++ "q")]).
Proof.
  intros Ho Hc Hp Hpawn Hrank Hne.
  destruct (candidate_run env origin cell p Ho Hc Hp) as [na [nb [Hna [Hnb Hcand]]]].
  exists na, nb. split; [assumption|]. split; [assumption|].
  rewrite Hcand. apply Z.eqb_neq in Hne. rewrite Hne, Hpawn.
  cbn [piece_type_eqb andb].
  destruct Hrank as [-> | ->]; reflexivity.
Qed.

Lemma main_loop_returns (frames : list (list Event)) (env : Env) :
  reachable env ->
  exists texts env', main_loop frames env = (Return texts, env') /\ reachable env'.
Proof.
  revert env. induction frames as [|events rest IH]; intros env Hreach;
    cbn [main_loop]; destruct (running env); try (exists [], env; now split).
  destruct (handle_events_returns events env Hreach) as [env1 [Hrun Hreach1]].
  destruct (IH env1 Hreach1) as [texts [env' [Hrest Hreach']]].
  exists (status_text (game_board env1) :: texts), env'. split; [|assumption].
  unfold frame, bind, ret. rewrite Hrun, Hrest. reflexivity.
Qed.

End HandlerFacts.

(** ** The reference engine keeps pawns off the back ranks *)

Module ReferenceFacts.
Import ReferenceEngine ReferenceChecks.

Lemma nth_set_nth {A : Type} (l : list A) (i j : nat) (v d : A) :
  nth i (set_nth j v l) d =
    if (Nat.eqb i j && Nat.ltb j (List.length l))%bool then v else nth i l d.
Proof.
  revert i j. induction l as [|h t IH]; intros i j.
  - cbn [set_nth List.length]. destruct j; rewrite andb_false_r; reflexivity.
  - destruct j as [|j], i as [|i]; cbn [set_nth nth]; try reflexivity.
    rewrite IH. reflexivity.
Qed.

Lemma pawns_off_back_ranks_sound (p : Position) :
  pawns_off_back_ranks p = true -> no_pawn_on_back_rank (E := engine) p.
Proof.
  intros Hall sq pc Hat Hpawn. simpl in Hat.
  assert (Hon : 0 <= sq < 64).
  { unfold at_square in Hat.
    destruct ((0 <=? sq) && (sq <? 64)) eqn:Hon; [|discriminate].
    apply andb_prop in Hon. lia. }
  pose proof (proj1 (forallb_forall _ _) Hall sq (in_all_squares sq Hon)) as H.
  cbv beta in H. rewrite Hat, Hpawn in H. cbn [piece_type_eqb andb] in H.
  apply negb_true_iff, orb_false_elim in H. destruct H as [H0 H7].
  apply Z.eqb_neq in H0, H7. split; assumption.
Qed.

Lemma start_no_pawn_on_back_rank :
  no_pawn_on_back_rank (E := engine) (start_board (RulesEngine := engine)).
Proof. apply pawns_off_back_ranks_sound. vm_compute. reflexivity. Qed.

(** A legal move keeps pawns off the back ranks: a pawn that reaches
    one is replaced by the piece it promotes to. *)
Lemma push_no_pawn_on_back_rank (b : Position) (m : Move) :
  no_pawn_on_back_rank (E := engine) b ->
  is_legal (RulesEngine := engine) b m = true ->
  no_pawn_on_back_rank (E := engine) (push (RulesEngine := engine) b m).
Proof.
  intros Hvalid Hlegal sq q Hat Hpawn. simpl in *.
  unfold legal in Hlegal. apply andb_prop in Hlegal. destruct Hlegal as [Hps _].
  unfold pseudo_legal in Hps.
  destruct (at_square b (from_square m)) as [pc|] eqn:Hfrom;
    [|rewrite !andb_false_r in Hps; discriminate].
  rewrite !andb_true_iff in Hps.
  destruct Hps as [[[_ Hto] _] [[_ Hprom] _]].
  unfold on_board in Hto. apply andb_prop in Hto.
  unfold apply_move in Hat. rewrite Hfrom in Hat.
  unfold at_square in Hat. cbn [squares] in Hat.
  destruct ((0 <=? sq) && (sq <? 64)) eqn:Hon; [|discriminate].
  apply andb_prop in Hon.
  rewrite nth_set_nth in Hat.
  destruct (Nat.eqb (Z.to_nat sq) (Z.to_nat (to_square m)) && _)%bool eqn:Hhit.
  - apply andb_prop in Hhit. destruct Hhit as [Hhit _].
    apply Nat.eqb_eq in Hhit.
    assert (sq = to_square m) by lia. subst sq.
    injection Hat as Hq. unfold promotion_ok in Hprom.
    destruct (promotion m) as [t|].
    + subst q. cbn [piece_type] in Hpawn. subst t.
      cbn [piece_type_eqb negb] in Hprom.
      rewrite !andb_false_r in Hprom. discriminate.
    + subst q. rewrite Hpawn in Hprom. cbn [piece_type_eqb andb] in Hprom.
      apply negb_true_iff, orb_false_elim in Hprom. destruct Hprom as [H7 H0].
      apply Z.eqb_neq in H0, H7. split; assumption.
  - rewrite nth_set_nth in Hat.
    destruct (Nat.eqb (Z.to_nat sq) (Z.to_nat (from_square m)) && _)%bool;
      [discriminate|].
    apply (Hvalid sq q); [|assumption].
    change (at_square b sq = Some q).
    unfold at_square. destruct Hon as [H1 H2]. rewrite H1, H2. exact Hat.
Qed.

End ReferenceFacts.

(** ** The claims *)

Section Claims.

Context {E : RulesEngine}.

(** C1: in every state of the loop with a cell selected, a left click
    on any cell of the board (a legal target, an illegal one, or the
    selected cell itself) is handled and leaves the selection empty. *)
Theorem second_click_clears_selection (env : Env) (origin : Cell) (pos : Z * Z) :
  reachable env ->
  selected_square_coords env = Some origin ->
  in_board (pixel_to_cell pos) = true ->
  exists env',
    handle_event (MOUSEBUTTONDOWN pos 1) env = (Return tt, env') /\
    selected_square_coords env' = None.
Proof.
  intros Hreach Hsel Hc.
  pose proof (reachable_selection_invariant env Hreach) as Hinv.
  rewrite handle_left_click.
  destruct (left_click_run env pos Hc) as [nb [Hnb ->]]. rewrite Hsel.
  destruct (second_click_returns env origin _ nb Hinv Hsel Hc Hnb)
    as [env' [Hrun [Hnone _]]].
  exists env'. split; assumption.
Qed.

(** C2: with nothing selected, a left click on a cell of the board
    asks the engine once for the piece on the cell's square; the cell
    becomes the selection exactly when that piece is of the side to
    move, and otherwise the selection stays empty; the board, the
    running flag and the rest of the log are as before. *)
Theorem first_click_selects_own_piece (env : Env) (pos : Z * Z) :
  selected_square_coords env = None ->
  in_board (pixel_to_cell pos) = true ->
  exists env',
    handle_event (MOUSEBUTTONDOWN pos 1) env = (Return tt, env') /\
    (selected_square_coords env' = Some (pixel_to_cell pos) <->
     exists p, piece_at (game_board env) (cell_to_square_id (pixel_to_cell pos)) = Some p /\
               color p = turn (game_board env)) /\
    (selected_square_coords env' = Some (pixel_to_cell pos) \/
     selected_square_coords env' = None) /\
    game_board env' = game_board env /\
    running env' = running env /\
    calls env' = (calls env ++ [Call_piece_at (cell_to_square_id (pixel_to_cell pos))])%list.
Proof.
  intros Hsel Hc. rewrite (handle_first_click env pos Hsel Hc).
  eexists. split; [reflexivity|]. cbn [selected_square_coords game_board running calls].
  repeat split; try reflexivity.
  - destruct (piece_at (game_board env) (cell_to_square_id (pixel_to_cell pos))) as [p|];
      [|discriminate].
    destruct (Bool.eqb (color p) (turn (game_board env))) eqn:Hcol; [|discriminate].
    intros _. exists p. split; [reflexivity | now apply Bool.eqb_prop].
  - intros [p [Hp Hcol]]. rewrite Hp, Hcol, Bool.eqb_reflx. reflexivity.
  - destruct (piece_at (game_board env) (cell_to_square_id (pixel_to_cell pos))) as [p|];
      [|now right].
    destruct (Bool.eqb (color p) (turn (game_board env))); [now left | now right].
Qed.

(** C4: in every state of the loop (the engine keeping pawns off the
    first and last rank, as chess does), for every two cells of the
    board such that the first holds a pawn and the second lies on
    engine rank 7 or 0, the move builder returns the move between the
    two squares with promotion to the queen: it parses the four-letter
    string, reads the piece, and parses the string again with [q]
    appended. *)
Theorem pawn_to_last_rank_promotes_to_queen
        (env : Env) (origin cell : Cell) (p : Piece) :
  no_pawn_on_back_rank start_board ->
  (forall b m, no_pawn_on_back_rank b -> is_legal b m = true ->
               no_pawn_on_back_rank (push b m)) ->
  reachable env ->
  in_board origin = true -> in_board cell = true ->
  piece_at (game_board env) (cell_to_square_id origin) = Some p ->
  piece_type p = PAWN ->
  square_rank (cell_to_square_id cell) = 7 \/ square_rank (cell_to_square_id cell) = 0 ->
  exists na nb,
    square_name (cell_to_square_id origin) = Return na /\
    square_name (cell_to_square_id cell) = Return nb /\
    candidate origin cell env =
      (Return (mkMove (cell_to_square_id origin) (cell_to_square_id cell)
                      (Some QUEEN) None),
       add_calls env [Call_from_uci (na ++ nb);
                      Call_piece_at (cell_to_square_id origin);
                      Call_from_uci ((na ++ nb) ++ "q")]).
Proof.
  intros Hstart Hpush Hreach Ho Hc Hp Hpawn Hrank.
  apply (candidate_pawn_last_rank env origin cell p); try assumption.
  intros Heq.
  destruct (reachable_board_property no_pawn_on_back_rank env Hstart Hpush Hreach
              _ _ Hp Hpawn) as [H0 H7].
  rewrite Heq in H0, H7. destruct Hrank; contradiction.
Qed.

(** C5: the status line follows checkmate > stalemate > check >
    plain turn: it announces checkmate (for the side that is not to
    move) exactly when the position is checkmate, stalemate exactly
    when it is stalemate and not checkmate, check exactly when it is
    check and neither of the two, and the bare turn otherwise. *)
Theorem status_precedence (b : Board) :
  (status_text b = "CHECKMATE! Black Wins" <->
     is_checkmate b = true /\ turn b = WHITE) /\
  (status_text b = "CHECKMATE! White Wins" <->
     is_checkmate b = true /\ turn b = BLACK) /\
  (status_text b = "STALEMATE (Draw)" <->
     is_checkmate b = false /\ is_stalemate b = true) /\
  (status_text b = "Turn: White (CHECK)" <->
     is_checkmate b = false /\ is_stalemate b = false /\ is_check b = true /\
     turn b = WHITE) /\
  (status_text b = "Turn: Black (CHECK)" <->
     is_checkmate b = false /\ is_stalemate b = false /\ is_check b = true /\
     turn b = BLACK) /\
  (status_text b = "Turn: White" <->
     is_checkmate b = false /\ is_stalemate b = false /\ is_check b = false /\
     turn b = WHITE) /\
  (status_text b = "Turn: Black" <->
     is_checkmate b = false /\ is_stalemate b = false /\ is_check b = false /\
     turn b = BLACK).
Proof.
  unfold status_text, WHITE, BLACK.
  destruct (is_checkmate b), (is_stalemate b), (is_check b), (turn b);
    cbn [Bool.eqb String.append];
    repeat split; intros; try discriminate;
    repeat match goal with H : _ /\ _ |- _ => destruct H end;
    try discriminate; reflexivity.
Qed.

(** C6: in every state of the loop with a cell selected, when the
    move built for a left click on a cell of the board is not among
    the engine's legal moves, the click is handled, nothing is pushed,
    the board (and so the side to move) is as before, and the
    selection is empty. *)
Theorem illegal_move_discarded
        (env env1 : Env) (origin : Cell) (pos : Z * Z) (m : Move) :
  reachable env ->
  selected_square_coords env = Some origin ->
  in_board (pixel_to_cell pos) = true ->
  candidate origin (pixel_to_cell pos) env = (Return m, env1) ->
  is_legal (game_board env) m = false ->
  exists env',
    handle_event (MOUSEBUTTONDOWN pos 1) env = (Return tt, env') /\
    game_board env' = game_board env /\
    turn (game_board env') = turn (game_board env) /\
    selected_square_coords env' = None /\
    running env' = running env /\
    exists cs, calls env' = (calls env ++ cs)%list /\ forall m', ~ In (Call_push m') cs.
Proof.
  intros Hreach Hsel Hc Hcand Hillegal.
  destruct (reachable_selection_invariant env Hreach _ Hsel) as [Ho [p [Hp _]]].
  rewrite (handle_second_click env origin pos Ho Hsel Hc), Hcand.
  destruct (candidate_frame env env1 origin _ p _ Ho Hc Hp Hcand) as [cs [-> Hcs]].
  cbn [game_board add_calls running calls]. rewrite Hillegal.
  eexists. split; [reflexivity|].
  cbn [game_board selected_square_coords running calls].
  repeat split.
  exists (cs ++ [Call_legal_moves_contains m])%list. split.
  - now rewrite app_assoc.
  - intros m' Hin. apply in_app_or in Hin. destruct Hin as [Hin | Hin].
    + exact (Hcs m' Hin).
    + cbn in Hin. intuition discriminate.
Qed.

(** C7: a left click whose column [x // 80] or row [y // 80] is not
    in [0,7] changes nothing: the state after it is the state before
    it, call log included (no move is built, nothing is asked of the
    engine). *)
Theorem click_outside_board_ignored (env : Env) (x y : Z) :
  ~ (0 <= x / SQUARE_SIZE <= 7) \/ ~ (0 <= y / SQUARE_SIZE <= 7) ->
  handle_event (MOUSEBUTTONDOWN (x, y) 1) env = (Return tt, env).
Proof.
  intros Hout. rewrite handle_left_click. unfold left_click.
  destruct (((0 <=? x / SQUARE_SIZE) && (x / SQUARE_SIZE <? 8))
            && ((0 <=? y / SQUARE_SIZE) && (y / SQUARE_SIZE <? 8))) eqn:Hin;
    [|reflexivity].
  rewrite !andb_true_iff, !Z.leb_le, !Z.ltb_lt in Hin. lia.
Qed.

(** C8: in every state of the loop with a cell selected, a left click
    on a cell of the board is handled without an exception; when the
    two squares do not make a move (the builder raises, which it does
    with [ValueError] only), the outcome is that of an illegal move:
    nothing pushed, the board as before, the selection empty. *)
Theorem second_click_never_raises (env : Env) (origin : Cell) (pos : Z * Z) :
  reachable env ->
  selected_square_coords env = Some origin ->
  in_board (pixel_to_cell pos) = true ->
  exists env',
    handle_event (MOUSEBUTTONDOWN pos 1) env = (Return tt, env') /\
    forall e env1,
      candidate origin (pixel_to_cell pos) env = (Raise e, env1) ->
      e = ValueError /\
      env' = mkEnv (game_board env) (running env) None (calls env1) /\
      exists cs, calls env1 = (calls env ++ cs)%list /\ forall m', ~ In (Call_push m') cs.
Proof.
  intros Hreach Hsel Hc.
  destruct (reachable_selection_invariant env Hreach _ Hsel) as [Ho [p [Hp _]]].
  rewrite (handle_second_click env origin pos Ho Hsel Hc).
  destruct (candidate origin (pixel_to_cell pos) env) as [[m|e] env1] eqn:Hcand.
  - destruct (is_legal (game_board env1) m);
      eexists; (split; [reflexivity|]); intros e env2 Hraise; discriminate.
  - destruct (candidate_frame env env1 origin _ p _ Ho Hc Hp Hcand) as [cs [Henv1 Hcs]].
    destruct (candidate_run env origin _ p Ho Hc Hp) as [na [nb [_ [_ Hrun]]]].
    assert (e = ValueError).
    { rewrite Hcand in Hrun.
      destruct (cell_to_square_id origin =? cell_to_square_id (pixel_to_cell pos));
        [|destruct (piece_type_eqb (piece_type p) PAWN && _)]; congruence. }
    subst e. eexists. split; [reflexivity|].
    intros e env2 Hraise. injection Hraise as <- <-.
    split; [reflexivity|]. subst env1. cbn [game_board running calls add_calls].
    split; [reflexivity|]. exists cs. split; [reflexivity | assumption].
Qed.

(** C9: from the starting position with nothing selected (the engine
    having a white pawn on e2, white to move, e2e4 legal, and passing
    the turn on a move), a left click in the cell of e2 and then one in
    the cell of e4 push the move e2e4; the selection is empty again and
    it is black's turn. *)
Theorem e2_e4_scenario (p1 p2 : Z * Z) :
  piece_at start_board 12 = Some (mkPiece PAWN WHITE) ->
  turn start_board = WHITE ->
  is_legal start_board (mkMove 12 28 None None) = true ->
  (forall b m, is_legal b m = true -> turn (push b m) = negb (turn b)) ->
  pixel_to_cell p1 = (4, 6) ->
  pixel_to_cell p2 = (4, 4) ->
  square_name (cell_to_square_id (4, 6)) = Return "e2" /\
  square_name (cell_to_square_id (4, 4)) = Return "e4" /\
  from_uci "e2e4" = Return (mkMove 12 28 None None) /\
  exists env',
    handle_events [MOUSEBUTTONDOWN p1 1; MOUSEBUTTONDOWN p2 1] initial_env
      = (Return tt, env') /\
    game_board env' = push start_board (mkMove 12 28 None None) /\
    selected_square_coords env' = None /\
    turn (game_board env') = BLACK /\
    calls env' = [Call_piece_at 12; Call_from_uci "e2e4"; Call_piece_at 12;
                  Call_legal_moves_contains (mkMove 12 28 None None);
                  Call_push (mkMove 12 28 None None)].
Proof.
  intros Hpawn Hturn Hlegal Hflip Hc1 Hc2.
  split; [reflexivity|]. split; [reflexivity|]. split; [reflexivity|].
  cbn [handle_events]. unfold bind at 1.
  rewrite (handle_first_click initial_env p1 eq_refl)
    by (rewrite Hc1; reflexivity).
  rewrite Hc1. change (cell_to_square_id (4, 6)) with 12.
  cbn [initial_env game_board running calls]. rewrite Hpawn, Hturn.
  cbn [color Bool.eqb WHITE app]. unfold bind at 1.
  match goal with
  | |- context [handle_event (MOUSEBUTTONDOWN p2 1) ?env] =>
      rewrite (handle_second_click env (4, 6) p2 eq_refl eq_refl)
        by (rewrite Hc2; reflexivity)
  end.
  rewrite Hc2.
  match goal with
  | |- context [candidate (4, 6) (4, 4) ?env] =>
      destruct (candidate_run env (4, 6) (4, 4) (mkPiece PAWN WHITE) eq_refl eq_refl Hpawn)
        as [na [nb [Hna [Hnb Hcand]]]]
  end.
  rewrite Hcand.
  vm_compute in Hna. vm_compute in Hnb.
  injection Hna as <-. injection Hnb as <-.
  change (cell_to_square_id (4, 6)) with 12.
  change (cell_to_square_id (4, 4)) with 28.
  change (12 =? 28) with false.
  change ((square_rank 28 =? 7) || (square_rank 28 =? 0)) with false.
  unfold add_calls.
  cbn [piece_type piece_type_eqb andb game_board running calls].
  rewrite Hlegal. unfold ret.
  eexists. split; [reflexivity|].
  cbn [game_board selected_square_coords calls app].
  repeat split. rewrite (Hflip _ _ Hlegal), Hturn. reflexivity.
Qed.

(** C10: an event that is not a press of mouse button 1 (another
    button, a release, a motion, a key, the quit event, anything else)
    is handled without touching the selection, the board or the call
    log; only the quit event changes anything, the running flag. *)
Theorem only_left_clicks_are_handled (env : Env) (event : Event) :
  is_left_click event = false ->
  exists env',
    handle_event event env = (Return tt, env') /\
    selected_square_coords env' = selected_square_coords env /\
    game_board env' = game_board env /\
    calls env' = calls env /\
    (event <> QUIT -> env' = env).
Proof.
  intros Hnot.
  destruct event as [|pos button|pos button|pos|key|key|type_id];
    try (exists env; repeat split; reflexivity).
  - eexists. split; [reflexivity|]. repeat split. congruence.
  - cbn [is_left_click] in Hnot. unfold handle_event, bind, ret. rewrite Hnot.
    exists env; repeat split; reflexivity.
Qed.

End Claims.

(** ** The claims on the reference engine *)

Module Runs.
Import ReferenceEngine ReferenceFacts Samples.

Lemma push_passes_turn (b : Position) (m : Move) :
  is_legal (RulesEngine := engine) b m = true ->
  turn (RulesEngine := engine) (push (RulesEngine := engine) b m)
  = negb (turn (RulesEngine := engine) b).
Proof.
  intros _. simpl. unfold apply_move.
  destruct (at_square b (from_square m)); reflexivity.
Qed.

Lemma pair_of_fst {A B : Type} (x : A * B) (a : A) : fst x = a -> x = (a, snd x).
Proof. destruct x as [a' b]. cbn [fst snd]. now intros ->. Qed.

Lemma play_reachable (events : list Event) :
  fst (handle_events (E := engine) events initial_env) = Return tt ->
  reachable (play events).
Proof.
  intros Hrun. apply (reachable_handle_events events initial_env).
  - apply reachable_initial.
  - unfold play. destruct (handle_events events initial_env) as [o env'].
    cbn [fst snd] in *. now subst o.
Qed.

Lemma second_click_clears_selection_witness :
  exists env',
    handle_event (click 4 4) e2_selected = (Return tt, env') /\
    selected_square_coords env' = None.
Proof.
  apply (second_click_clears_selection e2_selected (4, 6)
           (4 * SQUARE_SIZE + 40, 4 * SQUARE_SIZE + 40)).
  - apply play_reachable. vm_compute. reflexivity.
  - vm_compute. reflexivity.
  - vm_compute. reflexivity.
Defined.

Lemma first_click_selects_own_piece_witness :
  exists env',
    handle_event (click 4 6) (initial_env (E := engine)) = (Return tt, env') /\
    selected_square_coords env' = Some (4, 6) /\
    game_board env' = start.
Proof.
  destruct (first_click_selects_own_piece (initial_env (E := engine))
              (4 * SQUARE_SIZE + 40, 6 * SQUARE_SIZE + 40) eq_refl eq_refl)
    as [env' [Hrun [Hiff [_ [Hboard _]]]]].
  exists env'. split; [exact Hrun|]. split; [|exact Hboard].
  apply Hiff. exists (mkPiece PAWN WHITE). split; vm_compute; reflexivity.
Defined.

Lemma pawn_to_last_rank_promotes_to_queen_witness :
  fst (candidate (1, 1) (0, 0) b7_pawn_selected)
  = Return (mkMove 49 56 (Some QUEEN) None).
Proof.
  destruct (pawn_to_last_rank_promotes_to_queen b7_pawn_selected (1, 1) (0, 0)
              (mkPiece PAWN WHITE)
              start_no_pawn_on_back_rank push_no_pawn_on_back_rank)
    as [na [nb [_ [_ Hcand]]]].
  - apply play_reachable. vm_compute. reflexivity.
  - reflexivity.
  - reflexivity.
  - vm_compute. reflexivity.
  - reflexivity.
  - left. vm_compute. reflexivity.
  - rewrite Hcand. reflexivity.
Defined.

Lemma status_precedence_witness :
  is_check (RulesEngine := engine) (game_board fools_mate) = true /\
  status_text (game_board fools_mate) = "CHECKMATE! Black Wins".
Proof.
  split; [vm_compute; reflexivity|].
  apply (proj1 (status_precedence (game_board fools_mate))).
  split; vm_compute; reflexivity.
Defined.

Lemma illegal_move_discarded_witness :
  exists env',
    handle_event (click 4 3) e2_selected = (Return tt, env') /\
    game_board env' = game_board e2_selected /\
    selected_square_coords env' = None.
Proof.
  destruct (illegal_move_discarded e2_selected
              (snd (candidate (4, 6) (4, 3) e2_selected))
              (4, 6) (4 * SQUARE_SIZE + 40, 3 * SQUARE_SIZE + 40)
              (mkMove 12 36 None None))
    as [env' [Hrun [Hboard [_ [Hsel _]]]]].
  - apply play_reachable. vm_compute. reflexivity.
  - vm_compute. reflexivity.
  - vm_compute. reflexivity.
  - apply pair_of_fst. vm_compute. reflexivity.
  - vm_compute. reflexivity.
  - exists env'. repeat split; assumption.
Defined.

Lemma click_outside_board_ignored_witness :
  handle_event (MOUSEBUTTONDOWN (700, 100) 1) e2_selected = (Return tt, e2_selected) /\
  handle_event (MOUSEBUTTONDOWN (100, -5) 1) e2_selected = (Return tt, e2_selected).
Proof.
  split.
  - apply (click_outside_board_ignored e2_selected 700 100).
    left. change (700 / SQUARE_SIZE) with 8. lia.
  - apply (click_outside_board_ignored e2_selected 100 (-5)).
    right. change (-5 / SQUARE_SIZE) with (-1). lia.
Defined.

Lemma second_click_never_raises_witness :
  exists env',
    handle_event (click 4 6) e2_selected = (Return tt, env') /\
    game_board env' = game_board e2_selected /\
    selected_square_coords env' = None.
Proof.
  destruct (second_click_never_raises e2_selected (4, 6)
              (4 * SQUARE_SIZE + 40, 6 * SQUARE_SIZE + 40))
    as [env' [Hrun Hfail]].
  - apply play_reachable. vm_compute. reflexivity.
  - vm_compute. reflexivity.
  - vm_compute. reflexivity.
  - exists env'. split; [exact Hrun|].
    destruct (Hfail ValueError (snd (candidate (4, 6) (4, 6) e2_selected)))
      as [_ [-> _]]; [apply pair_of_fst; vm_compute; reflexivity|].
    split; reflexivity.
Defined.

Lemma e2_e4_scenario_witness :
  exists env',
    handle_events [MOUSEBUTTONDOWN (330, 500) 1; MOUSEBUTTONDOWN (350, 330) 1]
                  (initial_env (E := engine)) = (Return tt, env') /\
    game_board env' = apply_move start (mkMove 12 28 None None) /\
    selected_square_coords env' = None /\
    side (game_board env') = BLACK.
Proof.
  destruct (e2_e4_scenario (E := engine) (330, 500) (350, 330))
    as [_ [_ [_ [env' [Hrun [Hboard [Hsel [Hturn _]]]]]]]].
  - vm_compute. reflexivity.
  - reflexivity.
  - vm_compute. reflexivity.
  - exact push_passes_turn.
  - vm_compute. reflexivity.
  - vm_compute. reflexivity.
  - exists env'. repeat split; assumption.
Defined.

Lemma only_left_clicks_are_handled_witness :
  exists env',
    handle_event (MOUSEBUTTONDOWN (350, 330) 3) e2_selected = (Return tt, env') /\
    env' = e2_selected.
Proof.
  destruct (only_left_clicks_are_handled e2_selected (MOUSEBUTTONDOWN (350, 330) 3))
    as [env' [Hrun [_ [_ [_ Hsame]]]]].
  - reflexivity.
  - exists env'. split; [exact Hrun|]. apply Hsame. discriminate.
Defined.

(** Played to the end: the pawn on b7 takes on a8 and a white queen
    stands there. *)
Example promotion_on_the_board :
  exists env',
    handle_event (click 0 0) b7_pawn_selected = (Return tt, env') /\
    at_square (game_board env') 56 = Some (mkPiece QUEEN WHITE) /\
    at_square (game_board env') 49 = None /\
    side (game_board env') = BLACK.
Proof.
  exists (snd (handle_event (click 0 0) b7_pawn_selected)).
  split; [apply pair_of_fst|repeat split]; vm_compute; reflexivity.
Qed.

(** Outside the invariant the handler is not total: with an empty
    square as the selection, the piece lookup gives [None] and reading
    its type raises; no state of the loop is like this. *)
Example selection_of_empty_square_raises :
  fst (handle_event (click 4 3) (mkEnv (E := engine) start true (Some (4, 4)) []))
  = Raise AttributeError.
Proof. vm_compute. reflexivity. Qed.

End Runs.

(** ** More on the loop *)

Section LoopFacts.

Context {E : RulesEngine}.

Ltac no_push_in_nil :=
  try reflexivity;
  try match goal with H : In _ [] |- _ => destruct H end.

Lemma plain_or_queen_candidate (origin cell : Cell) (prom : option PieceType) :
  in_board origin = true -> in_board cell = true ->
  (cell_to_square_id origin =? cell_to_square_id cell) = false ->
  prom = None \/ prom = Some QUEEN ->
  plain_or_queen (mkMove (cell_to_square_id origin) (cell_to_square_id cell) prom None).
Proof.
  intros Ho Hc Hne Hprom. apply Z.eqb_neq in Hne.
  pose proof (cell_to_square_id_bounds _ Ho).
  pose proof (cell_to_square_id_bounds _ Hc).
  unfold plain_or_queen; cbn [promotion drop from_square to_square]. auto.
Qed.

(** What handling one event does, in a state that satisfies the
    selection invariant: it returns; the log grows; only [QUIT] touches
    the running flag; a move is pushed only by a left click with a cell
    selected, it starts from that cell's square, it is of the kind
    [plain_or_queen], the engine said it was legal, and the selection
    is reset; without a push the board is as before. *)
Lemma handle_event_effect (env : Env) (event : Event) :
  selection_invariant env ->
  exists env' cs,
    handle_event event env = (Return tt, env') /\
    calls env' = (calls env ++ cs)%list /\
    running env' = (if is_quit event then false else running env) /\
    (forall m, In (Call_push m) cs ->
       plain_or_queen m /\
       is_legal (game_board env) m = true /\
       game_board env' = push (game_board env) m /\
       is_left_click event = true /\
       selected_square_coords env' = None /\
       exists origin, selected_square_coords env = Some origin /\
                      from_square m = cell_to_square_id origin) /\
    ((forall m, ~ In (Call_push m) cs) -> game_board env' = game_board env).
Proof.
  intros Hinv.
  assert (Hsame : exists env' cs,
             (Return tt, env) = (Return tt, env') /\
             calls env' = (calls env ++ cs)%list /\
             running env' = running env /\
             (forall m, In (Call_push m) cs ->
                plain_or_queen m /\
                is_legal (game_board env) m = true /\
                game_board env' = push (game_board env) m /\
                false = true /\
                selected_square_coords env' = None /\
                exists origin, selected_square_coords env = Some origin /\
                               from_square m = cell_to_square_id origin) /\
             ((forall m, ~ In (Call_push m) cs) -> game_board env' = game_board env)).
  { exists env, []. rewrite app_nil_r.
    repeat split; no_push_in_nil. }
  destruct event as [|pos button|pos button|pos|key|key|type_id]; try exact Hsame.
  - exists (mkEnv (game_board env) false (selected_square_coords env) (calls env)), [].
    cbn [calls running game_board is_quit]. rewrite app_nil_r.
    repeat split; no_push_in_nil.
  - cbn [is_quit]. unfold handle_event, bind, ret.
    destruct (button =? 1) eqn:Hb.
    2:{ change (is_left_click (MOUSEBUTTONDOWN pos button)) with (button =? 1).
        rewrite Hb. exact Hsame. }
    change (is_left_click (MOUSEBUTTONDOWN pos button)) with (button =? 1).
    rewrite Hb.
    destruct (in_board (pixel_to_cell pos)) eqn:Hin.
    2:{ exists env, []. rewrite app_nil_r.
        split;
          [|repeat split;
            no_push_in_nil].
        destruct pos as [x y]. unfold left_click.
        unfold in_board, pixel_to_cell in Hin; cbn [fst snd] in Hin.
        rewrite Hin. reflexivity. }
    destruct (selected_square_coords env) as [origin|] eqn:Hsel.
    + destruct (Hinv _ Hsel) as [Ho [p [Hp _]]].
      pose proof (handle_second_click env origin pos Ho Hsel Hin) as Hrun.
      rewrite handle_left_click in Hrun. rewrite Hrun.
      destruct (candidate_run env origin _ p Ho Hin Hp) as [na [nb [_ [_ Hcand]]]].
      rewrite Hcand.
      destruct (cell_to_square_id origin =? cell_to_square_id (pixel_to_cell pos)) eqn:Hne.
      * eexists. exists [Call_from_uci (na ++ nb)].
        split; [reflexivity|]. cbn [calls running game_board add_calls].
        split; [reflexivity|]. split; [reflexivity|]. split.
        -- intros m Hm. cbn in Hm. destruct Hm as [Hm|Hm]; [discriminate Hm | destruct Hm].
        -- reflexivity.
      * assert (Hgood : forall prom, prom = None \/ prom = Some QUEEN ->
                  plain_or_queen (mkMove (cell_to_square_id origin)
                                         (cell_to_square_id (pixel_to_cell pos)) prom None))
          by (intros prom Hprom; now apply plain_or_queen_candidate).
        destruct (piece_type_eqb (piece_type p) PAWN && _);
          cbn [game_board add_calls];
          match goal with
          | |- context [is_legal ?bb ?mm] => destruct (is_legal bb mm) eqn:Hlegal
          end;
          eexists; eexists;
          (split; [reflexivity|]);
          cbn [calls running game_board selected_square_coords add_calls];
          (split; [rewrite <- app_assoc; reflexivity|]);
          (split; [reflexivity|]);
          (split;
           [intros m Hm; cbn in Hm;
            repeat (destruct Hm as [Hm|Hm]; try discriminate Hm);
            try (destruct Hm; fail);
            injection Hm as <-;
            (split; [apply Hgood; auto|]);
            (split; [exact Hlegal|]);
            repeat (split; [reflexivity|]);
            exists origin; split; reflexivity
           |intros Hnone; try reflexivity;
            exfalso; eapply Hnone; cbn; eauto 10]).
    + pose proof (handle_first_click env pos Hsel Hin) as Hrun.
      rewrite handle_left_click in Hrun. rewrite Hrun.
      eexists. eexists. split; [reflexivity|].
      cbn [calls running game_board].
      split; [reflexivity|]. split; [reflexivity|]. split.
      * intros m Hm. cbn in Hm. destruct Hm as [Hm|Hm]; [discriminate Hm | destruct Hm].
      * reflexivity.
Qed.

End LoopFacts.

Section LoopProperties.

Context {E : RulesEngine}.

Lemma push_in_or_not (cs : list Call) :
  (forall m, ~ In (Call_push m) cs) \/ exists m, In (Call_push m) cs.
Proof.
  induction cs as [|c cs IH].
  - left. intros m Hm. destruct Hm.
  - destruct c as [uci|sq|m0|m0];
      try (destruct IH as [IH | [m Hm]];
           [left; intros m [Hm|Hm]; [discriminate Hm | exact (IH m Hm)]
           |right; exists m; right; exact Hm]).
    right. exists m0. left. reflexivity.
Qed.

(** The running flag after a batch of events: cleared if the batch
    holds a [QUIT], and never set again. *)
Lemma handle_events_running (events : list Event) (env env' : Env) :
  reachable env ->
  handle_events events env = (Return tt, env') ->
  running env' = if existsb is_quit events then false else running env.
Proof.
  revert env. induction events as [|event rest IH]; intros env Hreach Hrun.
  - injection Hrun as <-. reflexivity.
  - destruct (handle_event_effect env event (reachable_selection_invariant _ Hreach))
      as [env1 [cs [Hstep [_ [Hrunning _]]]]].
    cbn [handle_events] in Hrun. unfold bind in Hrun. rewrite Hstep in Hrun.
    rewrite (IH env1 (reachable_event _ _ _ Hreach Hstep) Hrun), Hrunning.
    cbn [existsb]. destruct (is_quit event), (existsb is_quit rest); reflexivity.
Qed.

Lemma existsb_is_quit (events : list Event) :
  existsb is_quit events = true <-> In QUIT events.
Proof.
  rewrite existsb_exists. split.
  - intros [event [Hin Hq]]. destruct event; try discriminate. exact Hin.
  - intros Hin. exists QUIT. split; [exact Hin | reflexivity].
Qed.


(** X2: in every state of the loop, the selected cell, if any, is on
    the board and holds a piece of the side to move. *)
Theorem selection_always_on_own_piece (env : Env) (c : Cell) :
  reachable env ->
  selected_square_coords env = Some c ->
  in_board c = true /\
  exists p, piece_at (game_board env) (cell_to_square_id c) = Some p /\
            color p = turn (game_board env).
Proof.
  intros Hreach Hsel. exact (reachable_selection_invariant env Hreach c Hsel).
Qed.

(** X3: in every state of the loop an event either leaves the board as
    it is, or it is a left click with a cell selected and the board
    becomes the push of one move, from the selected cell's square, that
    the engine reported legal; the selection is then empty. *)
Theorem board_changes_only_by_legal_move (env : Env) (event : Event) :
  reachable env ->
  exists env',
    handle_event event env = (Return tt, env') /\
    (game_board env' = game_board env \/
     exists origin m,
       selected_square_coords env = Some origin /\
       is_left_click event = true /\
       from_square m = cell_to_square_id origin /\
       is_legal (game_board env) m = true /\
       game_board env' = push (game_board env) m /\
       selected_square_coords env' = None).
Proof.
  intros Hreach.
  destruct (handle_event_effect env event (reachable_selection_invariant _ Hreach))
    as [env' [cs [Hstep [_ [_ [Hpush Hnone]]]]]].
  exists env'. split; [exact Hstep|].
  destruct (push_in_or_not cs) as [Hno | [m Hm]].
  - left. exact (Hnone Hno).
  - right. destruct (Hpush m Hm) as [_ [Hlegal [Hboard [Hclick [Hsel [origin [Ho Hfrom]]]]]]].
    exists origin, m. repeat split; assumption.
Qed.

(** X4: in every state of the loop with a cell selected, when the move
    built for a left click on a cell of the board is among the engine's
    legal moves, it is pushed (after the legality query, and nothing
    else), and the selection is empty. *)
Theorem legal_move_pushed
        (env env1 : Env) (origin : Cell) (pos : Z * Z) (m : Move) :
  reachable env ->
  selected_square_coords env = Some origin ->
  in_board (pixel_to_cell pos) = true ->
  candidate origin (pixel_to_cell pos) env = (Return m, env1) ->
  is_legal (game_board env) m = true ->
  handle_event (MOUSEBUTTONDOWN pos 1) env =
    (Return tt,
     mkEnv (push (game_board env) m) (running env) None
           (calls env1 ++ [Call_legal_moves_contains m; Call_push m])).
Proof.
  intros Hreach Hsel Hc Hcand Hlegal.
  destruct (reachable_selection_invariant env Hreach _ Hsel) as [Ho [p [Hp _]]].
  rewrite (handle_second_click env origin pos Ho Hsel Hc), Hcand.
  destruct (candidate_frame env env1 origin _ p _ Ho Hc Hp Hcand) as [cs [-> _]].
  cbn [game_board add_calls running calls]. rewrite Hlegal. reflexivity.
Qed.

(** X5: every move the loop has ever pushed goes between two different
    squares of the board, is no drop, and promotes to the queen or not
    at all. *)
Theorem pushed_moves_plain_or_queen (env : Env) (m : Move) :
  reachable env ->
  In (Call_push m) (calls env) ->
  plain_or_queen m.
Proof.
  intros Hreach. revert m.
  induction Hreach as [|env env' event Hreach IH Hstep]; intros m Hin.
  - destruct Hin.
  - destruct (handle_event_effect env event (reachable_selection_invariant _ Hreach))
      as [env'' [cs [Hstep' [Hcalls [_ [Hpush _]]]]]].
    assert (env'' = env') by congruence. subst env''.
    rewrite Hcalls in Hin. apply in_app_or in Hin. destruct Hin as [Hin | Hin].
    + exact (IH m Hin).
    + exact (proj1 (Hpush m Hin)).
Qed.

(** X6: for two different cells of the board, the first holding a
    piece, the builder adds no promotion unless the piece is a pawn and
    the target lies on rank 7 or 0: it parses the four letters once and
    reads the piece once. *)
Theorem candidate_without_promotion (env : Env) (origin cell : Cell) (p : Piece) :
  in_board origin = true -> in_board cell = true ->
  piece_at (game_board env) (cell_to_square_id origin) = Some p ->
  cell_to_square_id origin <> cell_to_square_id cell ->
  piece_type p <> PAWN \/
  (square_rank (cell_to_square_id cell) <> 7 /\ square_rank (cell_to_square_id cell) <> 0) ->
  exists na nb,
    square_name (cell_to_square_id origin) = Return na /\
    square_name (cell_to_square_id cell) = Return nb /\
    candidate origin cell env =
      (Return (mkMove (cell_to_square_id origin) (cell_to_square_id cell) None None),
       add_calls env [Call_from_uci (na ++ nb);
                      Call_piece_at (cell_to_square_id origin)]).
Proof.
  intros Ho Hc Hp Hne Hplain.
  destruct (candidate_run env origin cell p Ho Hc Hp) as [na [nb [Hna [Hnb Hcand]]]].
  exists na, nb. split; [assumption|]. split; [assumption|].
  rewrite Hcand. apply Z.eqb_neq in Hne. rewrite Hne.
  destruct Hplain as [Htype | [H7 H0]].
  - destruct (piece_type p); try contradiction; reflexivity.
  - apply Z.eqb_neq in H7, H0. rewrite H7, H0, andb_false_r. reflexivity.
Qed.

(** X7: when a batch of events holds a [QUIT], the loop still handles
    the whole batch, draws that one frame, and stops: later batches
    are never looked at. *)
Theorem quit_ends_the_loop
        (env : Env) (events : list Event) (rest : list (list Event)) :
  reachable env ->
  running env = true ->
  In QUIT events ->
  exists env',
    handle_events events env = (Return tt, env') /\
    running env' = false /\
    main_loop (events :: rest) env = (Return [status_text (game_board env')], env').
Proof.
  intros Hreach Hrunning Hquit.
  destruct (handle_events_returns events env Hreach) as [env' [Hrun Hreach']].
  pose proof (handle_events_running events env env' Hreach Hrun) as Hflag.
  rewrite (proj2 (existsb_is_quit events) Hquit) in Hflag.
  exists env'. split; [exact Hrun|]. split; [exact Hflag|].
  cbn [main_loop]. rewrite Hrunning. unfold frame, bind, ret. rewrite Hrun.
  destruct rest; cbn [main_loop]; rewrite Hflag; reflexivity.
Qed.

(** X8: without a [QUIT] event the loop goes on: it draws one frame
    for every batch of events and is still running at the end. *)
Theorem loop_runs_every_frame (frames : list (list Event)) :
  (forall events, In events frames -> ~ In QUIT events) ->
  exists texts env',
    main_loop frames initial_env = (Return texts, env') /\
    List.length texts = List.length frames /\
    running env' = true.
Proof.
  assert (Hgen : forall env, reachable env -> running env = true ->
            (forall events, In events frames -> ~ In QUIT events) ->
            exists texts env',
              main_loop frames env = (Return texts, env') /\
              List.length texts = List.length frames /\
              running env' = true).
  { induction frames as [|events rest IH]; intros env Hreach Hrunning Hnoquit;
      cbn [main_loop]; rewrite Hrunning.
    - exists [], env. repeat split. assumption.
    - destruct (handle_events_returns events env Hreach) as [env1 [Hrun Hreach1]].
      pose proof (handle_events_running events env env1 Hreach Hrun) as Hflag.
      destruct (existsb is_quit events) eqn:Hq.
      + apply existsb_is_quit in Hq. exfalso.
        exact (Hnoquit events (or_introl eq_refl) Hq).
      + rewrite Hrunning in Hflag.
        destruct (IH env1 Hreach1 Hflag) as [texts [env' [Hrest [Hlen Hrun']]]].
        { intros evs Hin. apply Hnoquit. right. exact Hin. }
        exists (status_text (game_board env1) :: texts), env'.
        split; [|split; [cbn [List.length]; now rewrite Hlen | assumption]].
        unfold frame, bind, ret. rewrite Hrun, Hrest. reflexivity. }
  intros Hnoquit. apply Hgen; [apply reachable_initial | reflexivity | assumption].
Qed.

(** X9: a left click on the cell that is selected only tries to parse
    the doubled square name, which fails: the selection is dropped, the
    board is not even read, and this in any state, whatever stands on
    the selected square. *)
Theorem click_on_selected_cell_deselects (env : Env) (origin : Cell) (pos : Z * Z) :
  selected_square_coords env = Some origin ->
  in_board origin = true ->
  pixel_to_cell pos = origin ->
  exists na,
    square_name (cell_to_square_id origin) = Return na /\
    handle_event (MOUSEBUTTONDOWN pos 1) env =
      (Return tt,
       mkEnv (game_board env) (running env) None
             (calls env ++ [Call_from_uci (na ++ na)])).
Proof.
  intros Hsel Ho Hpos.
  destruct (candidate_same_cell env origin Ho) as [na [Hna Hcand]].
  exists na. split; [exact Hna|].
  rewrite (handle_second_click env origin pos Ho Hsel) by (rewrite Hpos; exact Ho).
  rewrite Hpos, Hcand. reflexivity.
Qed.

End LoopProperties.

(** X10: inside the window, a pixel belongs to a cell of the board
    exactly when it is left of the side panel; a click in the side
    panel is therefore never a click on the board. *)
Theorem window_pixel_on_board_iff (x y : Z) :
  0 <= x < SCREEN_WIDTH -> 0 <= y < SCREEN_HEIGHT ->
  (in_board (pixel_to_cell (x, y)) = true <-> x < BOARD_SIZE).
Proof.
  unfold SCREEN_WIDTH, SCREEN_HEIGHT, BOARD_SIZE, SQUARE_SIZE. intros Hx Hy.
  rewrite in_board_bounds. unfold pixel_to_cell, SQUARE_SIZE. cbn [fst snd].
  pose proof (Z.div_mod x 80 ltac:(lia)). pose proof (Z.mod_pos_bound x 80 ltac:(lia)).
  pose proof (Z.div_mod y 80 ltac:(lia)). pose proof (Z.mod_pos_bound y 80 ltac:(lia)).
  lia.
Qed.

(** ** Assets *)

Lemma dict_get_set_same {V : Type} (d : dict V) (k : string) (v : V) :
  dict_get (dict_set d k v) k = Some v.
Proof.
  induction d as [|[k' v'] rest IH]; cbn [dict_set dict_get].
  - now rewrite String.eqb_refl.
  - destruct (String.eqb k' k) eqn:Hk; cbn [dict_get].
    + now rewrite String.eqb_refl.
    + now rewrite Hk.
Qed.

Lemma dict_get_set_other {V : Type} (d : dict V) (k k' : string) (v : V) :
  k <> k' -> dict_get (dict_set d k v) k' = dict_get d k'.
Proof.
  intros Hne. induction d as [|[k0 v0] rest IH]; cbn [dict_set dict_get].
  - apply String.eqb_neq in Hne. now rewrite Hne.
  - destruct (String.eqb k0 k) eqn:Hk; cbn [dict_get].
    + apply String.eqb_eq in Hk. subst k0.
      apply String.eqb_neq in Hne. now rewrite Hne.
    + destruct (String.eqb k0 k'); [reflexivity | exact IH].
Qed.

(** The image key of each of the twelve pieces. *)
Lemma image_key_of_piece (p : Piece) :
  exists image_key,
    dict_get PIECE_IMAGE_KEYS (symbol p) = Some image_key /\
    image_key <> "" /\
    In image_key (map snd PIECE_IMAGE_KEYS).
Proof.
  destruct p as [[] []]; eexists; (split; [reflexivity|]);
    (split; [discriminate | cbn; auto 20]).
Qed.

Section AssetFacts.

Variable isdir_assets : bool.
Variable image_load : string -> LoadResult.

Lemma fill_placeholders_get (names : list string) (pieces : dict Surface) (name : string) :
  dict_get (fill_placeholders names pieces) name =
    if existsb (String.eqb name) names
    then Some (Filled (SQUARE_SIZE, SQUARE_SIZE) (150, 150, 150))
    else dict_get pieces name.
Proof.
  revert pieces. induction names as [|n rest IH]; intros pieces; cbn [fill_placeholders existsb].
  - reflexivity.
  - rewrite IH. destruct (existsb (String.eqb name) rest).
    + now rewrite orb_true_r.
    + rewrite orb_false_r. destruct (String.eqb name n) eqn:Hn.
      * apply String.eqb_eq in Hn. subst n. apply dict_get_set_same.
      * apply String.eqb_neq in Hn. apply dict_get_set_other. congruence.
Qed.

(** The loop over the images, when none of them raises anything but
    [pygame.error]: a warning per image that failed, in order; each
    name gets the scaled image or the red placeholder; other keys are
    left alone. *)
Lemma load_each_succeeds (items : list (string * string)) :
  NoDup (map snd items) ->
  (forall name, In name (map snd items) ->
                image_load (img_path_of name) <> RaisesOther) ->
  forall pieces printed,
  exists result,
    load_each image_load items pieces printed =
      ((printed ++ map warning_of
           (filter (fun name => match image_load (img_path_of name) with
                                | RaisesPygameError => true
                                | _ => false
                                end) (map snd items)))%list,
       Some result) /\
    (forall name, In name (map snd items) ->
       dict_get result name =
         Some (match image_load (img_path_of name) with
               | Loaded => Scaled (img_path_of name) (SQUARE_SIZE, SQUARE_SIZE)
               | _ => Filled (SQUARE_SIZE, SQUARE_SIZE) (200, 0, 0)
               end)) /\
    (forall name, ~ In name (map snd items) ->
       dict_get result name = dict_get pieces name).
Proof.
  induction items as [|[key name] rest IH]; intros Hnodup Hok pieces printed.
  - exists pieces. cbn. rewrite app_nil_r. repeat split; intros; contradiction.
  - cbn [map snd] in Hnodup, Hok. inversion Hnodup as [|? ? Hnotin Hnodup']; subst.
    assert (Hok' : forall n, In n (map snd rest) -> image_load (img_path_of n) <> RaisesOther)
      by (intros n Hn; apply Hok; right; exact Hn).
    pose proof (Hok name (or_introl eq_refl)) as Hname.
    cbn [load_each map snd filter].
    destruct (image_load (img_path_of name)) eqn:Hload; [| |contradiction].
    + destruct (IH Hnodup' Hok'
                  (dict_set pieces name (Scaled (img_path_of name) (SQUARE_SIZE, SQUARE_SIZE)))
                  printed) as [result [Hrun [Hin Hout]]].
      exists result. split; [exact Hrun|]. split.
      * intros n [<- | Hn].
        -- rewrite (Hout name Hnotin), dict_get_set_same, Hload. reflexivity.
        -- exact (Hin n Hn).
      * intros n Hn. rewrite (Hout n) by (intros H; apply Hn; right; exact H).
        apply dict_get_set_other. intros ->. apply Hn. left. reflexivity.
    + destruct (IH Hnodup' Hok'
                  (dict_set pieces name (Filled (SQUARE_SIZE, SQUARE_SIZE) (200, 0, 0)))
                  (printed ++ [warning_of name])%list) as [result [Hrun [Hin Hout]]].
      exists result. split; [|split].
      * rewrite Hrun. cbn [map]. rewrite <- app_assoc. reflexivity.
      * intros n [<- | Hn].
        -- rewrite (Hout name Hnotin), dict_get_set_same, Hload. reflexivity.
        -- exact (Hin n Hn).
      * intros n Hn. rewrite (Hout n) by (intros H; apply Hn; right; exact H).
        apply dict_get_set_other. intros ->. apply Hn. left. reflexivity.
Qed.

(** Whenever the loop over the images ends, every name has an entry. *)
Lemma load_each_keys (items : list (string * string)) :
  forall pieces printed out result,
    load_each image_load items pieces printed = (out, Some result) ->
    forall name,
      In name (map snd items) \/ dict_get pieces name <> None ->
      dict_get result name <> None.
Proof.
  induction items as [|[key n] rest IH]; intros pieces printed out result Hrun name Hname.
  - cbn in Hrun. injection Hrun as _ <-. destruct Hname as [[]|H]; exact H.
  - cbn [load_each] in Hrun.
    assert (Hset : forall v, In name (map snd rest) \/ dict_get (dict_set pieces n v) name <> None).
    { intros v. destruct Hname as [[<- | Hin] | Hget].
      - right. rewrite dict_get_set_same. discriminate.
      - left. exact Hin.
      - right. destruct (String.eqb n name) eqn:Hn.
        + apply String.eqb_eq in Hn. subst n. rewrite dict_get_set_same. discriminate.
        + apply String.eqb_neq in Hn. rewrite dict_get_set_other by exact Hn. exact Hget. }
    destruct (image_load (img_path_of n)); [| |discriminate];
      eapply IH; eauto.
Qed.

(** An exception that is not [pygame.error] ends the loop. *)
Lemma load_each_raises (items : list (string * string)) (name : string) :
  In name (map snd items) ->
  image_load (img_path_of name) = RaisesOther ->
  forall pieces printed, snd (load_each image_load items pieces printed) = None.
Proof.
  induction items as [|[key n] rest IH]; intros Hin Hraise pieces printed.
  - destruct Hin.
  - cbn [load_each]. destruct Hin as [<- | Hin].
    + cbn [snd] in Hraise. rewrite Hraise. reflexivity.
    + destruct (image_load (img_path_of n)); [| |reflexivity]; now apply IH.
Qed.

Lemma image_names_nodup : NoDup (map snd PIECE_IMAGE_KEYS).
Proof.
  cbn. repeat (constructor; [cbn; intuition discriminate|]). constructor.
Qed.

(** X11: whenever [load_pieces] returns, with or without the folder and
    whichever images failed, every piece has an image: its symbol has a
    key in [PIECE_IMAGE_KEYS], and the key is in the dict returned. *)
Theorem load_pieces_has_all_images (pieces : dict Surface) :
  snd (load_pieces isdir_assets image_load) = Some pieces ->
  has_all_images pieces.
Proof.
  unfold load_pieces. intros Hrun p.
  destruct (image_key_of_piece p) as [image_key [Hkey [Hne Hin]]].
  destruct isdir_assets; cbn [negb snd] in Hrun.
  - destruct (load_each image_load PIECE_IMAGE_KEYS [] []) as [out res] eqn:Heach.
    cbn [snd] in Hrun. subst res.
    pose proof (load_each_keys _ _ _ _ _ Heach image_key (or_introl Hin)) as Hget.
    destruct (dict_get pieces image_key) as [s|] eqn:Hs; [|contradiction].
    exists image_key, s. auto.
  - injection Hrun as <-.
    exists image_key, (Filled (SQUARE_SIZE, SQUARE_SIZE) (150, 150, 150)).
    split; [exact Hkey|]. split; [exact Hne|].
    cbn in Hin. repeat (destruct Hin as [<- | Hin]; [reflexivity|]). destruct Hin.
Qed.

(** X12: without the [assets] folder no image is loaded: two lines are
    printed and every piece gets a grey square of the size of a cell. *)
Theorem load_pieces_without_assets (p : Piece) :
  fst (load_pieces false image_load) =
    ["Error: 'assets' folder not found.";
     "Please create an 'assets' folder with images (wP.png, bK.png, etc.)."] /\
  exists pieces image_key,
    snd (load_pieces false image_load) = Some pieces /\
    dict_get PIECE_IMAGE_KEYS (symbol p) = Some image_key /\
    dict_get pieces image_key = Some (Filled (SQUARE_SIZE, SQUARE_SIZE) (150, 150, 150)) /\
    List.length pieces = 12%nat.
Proof.
  split; [reflexivity|].
  destruct (image_key_of_piece p) as [image_key [Hkey [_ Hin]]].
  exists (fill_placeholders (map snd PIECE_IMAGE_KEYS) []), image_key.
  split; [reflexivity|]. split; [exact Hkey|].
  split; [|reflexivity].
  rewrite fill_placeholders_get.
  replace (existsb (String.eqb image_key) (map snd PIECE_IMAGE_KEYS)) with true;
    [reflexivity|].
  symmetry. apply existsb_exists. exists image_key.
  split; [exact Hin | apply String.eqb_refl].
Qed.

(** X13: with the folder, when loading raises nothing but
    [pygame.error], [load_pieces] returns; a warning is printed for
    each image that failed, in the order of [PIECE_IMAGE_KEYS], and
    nothing else; each name maps to its image scaled to the size of a
    cell, or to a red square if it failed. *)
Theorem load_pieces_with_assets :
  (forall name, In name (map snd PIECE_IMAGE_KEYS) ->
                image_load (img_path_of name) <> RaisesOther) ->
  exists pieces,
    load_pieces true image_load =
      (map warning_of
           (filter (fun name => match image_load (img_path_of name) with
                                | RaisesPygameError => true
                                | _ => false
                                end) (map snd PIECE_IMAGE_KEYS)),
       Some pieces) /\
    forall name, In name (map snd PIECE_IMAGE_KEYS) ->
      dict_get pieces name =
        Some (match image_load (img_path_of name) with
              | Loaded => Scaled (img_path_of name) (SQUARE_SIZE, SQUARE_SIZE)
              | _ => Filled (SQUARE_SIZE, SQUARE_SIZE) (200, 0, 0)
              end).
Proof.
  intros Hok.
  destruct (load_each_succeeds PIECE_IMAGE_KEYS image_names_nodup Hok [] [])
    as [result [Hrun [Hin _]]].
  exists result. split; [exact Hrun | exact Hin].
Qed.

(** X14: with the folder, an exception other than [pygame.error] while
    an image is loaded is not caught: [load_pieces] does not return. *)
Theorem load_pieces_uncaught (name : string) :
  In name (map snd PIECE_IMAGE_KEYS) ->
  image_load (img_path_of name) = RaisesOther ->
  snd (load_pieces true image_load) = None.
Proof.
  intros Hin Hraise. unfold load_pieces. cbn [negb].
  now apply (load_each_raises PIECE_IMAGE_KEYS name).
Qed.

End AssetFacts.

(** ** Drawing *)

Lemma in_range8 (r : Z) : In r range8 <-> 0 <= r < 8.
Proof.
  unfold range8. rewrite in_map_iff. split.
  - intros [n [<- Hn]]. apply in_seq in Hn. lia.
  - intros Hr. exists (Z.to_nat r). split; [lia | apply in_seq; lia].
Qed.

Section DrawingFacts.

Context {E : RulesEngine}.
Variable PIECES : dict Surface.

Lemma in_draw_board (board : Board) (op : DrawOp) :
  In op (draw_board PIECES board) <->
  exists row col, 0 <= row < 8 /\ 0 <= col < 8 /\ In op (draw_cell PIECES board row col).
Proof.
  unfold draw_board. rewrite in_flat_map. split.
  - intros [row [Hrow Hin]]. apply in_flat_map in Hin. destruct Hin as [col [Hcol Hin]].
    exists row, col. rewrite <- !in_range8. auto.
  - intros [row [col [Hrow [Hcol Hin]]]]. exists row. rewrite in_range8.
    split; [exact Hrow|]. apply in_flat_map. exists col. rewrite in_range8. auto.
Qed.

(** What a cell blits: nothing, or the image of the piece on its square. *)
Lemma in_draw_cell_blit (board : Board) (row col : Z) (s : Surface) (dest : Z * Z) :
  In (Blit s dest) (draw_cell PIECES board row col) <->
  dest = (col * SQUARE_SIZE, row * SQUARE_SIZE) /\
  exists p image_key,
    piece_at board (square col (7 - row)) = Some p /\
    dict_get PIECE_IMAGE_KEYS (symbol p) = Some image_key /\
    dict_get PIECES image_key = Some s.
Proof.
  unfold draw_cell. cbn [In]. split.
  - intros [Hrect | Hin]; [discriminate Hrect|].
    destruct (piece_at board (square col (7 - row))) as [p|] eqn:Hp; [|destruct Hin].
    destruct (dict_get PIECE_IMAGE_KEYS (symbol p)) as [image_key|] eqn:Hkey;
      [|destruct Hin].
    destruct (negb (image_key =? "")%string && dict_mem PIECES image_key); [|destruct Hin].
    destruct (dict_get PIECES image_key) as [s'|] eqn:Hs; [|destruct Hin].
    destruct Hin as [Hin | []]. injection Hin as <- <-.
    split; [reflexivity|]. exists p, image_key. auto.
  - intros [-> [p [image_key [Hp [Hkey Hs]]]]]. right.
    rewrite Hp, Hkey. unfold dict_mem. rewrite Hs.
    destruct (image_key_of_piece p) as [k [Hk [Hne _]]].
    assert (k = image_key) by congruence. subst k.
    apply String.eqb_neq in Hne. rewrite Hne. cbn. left. reflexivity.
Qed.

Lemma in_draw_cell_rect (board : Board) (row col : Z) (color : RGB) (rect : Z * Z * Z * Z) :
  In (DrawRect color rect) (draw_cell PIECES board row col) <->
  rect = (col * SQUARE_SIZE, row * SQUARE_SIZE, SQUARE_SIZE, SQUARE_SIZE) /\
  color = if (row + col) mod 2 =? 0 then LIGHT_SQUARE_COLOR else DARK_SQUARE_COLOR.
Proof.
  unfold draw_cell. cbn [In]. split.
  - intros [Hrect | Hin].
    + injection Hrect as <- <-. split; reflexivity.
    + exfalso.
      destruct (piece_at board (square col (7 - row))) as [p|]; [|destruct Hin].
      destruct (dict_get PIECE_IMAGE_KEYS (symbol p)) as [image_key|]; [|destruct Hin].
      destruct (negb (image_key =? "")%string && dict_mem PIECES image_key); [|destruct Hin].
      destruct (dict_get PIECES image_key); [|destruct Hin].
      destruct Hin as [Hin | []]. discriminate Hin.
  - intros [-> ->]. left. reflexivity.
Qed.

(** X15: the squares [draw_board] paints tile the board: every pixel
    of the board lies in the square painted for its own cell, and in no
    other painted square. *)
Theorem draw_board_tiles_the_board (board : Board) (x y : Z) :
  0 <= x < BOARD_SIZE -> 0 <= y < BOARD_SIZE ->
  exists color,
    In (DrawRect color (fst (pixel_to_cell (x, y)) * SQUARE_SIZE,
                        snd (pixel_to_cell (x, y)) * SQUARE_SIZE,
                        SQUARE_SIZE, SQUARE_SIZE))
       (draw_board PIECES board) /\
    forall color' rx ry w h,
      In (DrawRect color' (rx, ry, w, h)) (draw_board PIECES board) ->
      rx <= x < rx + w -> ry <= y < ry + h ->
      (rx, ry, w, h) = (fst (pixel_to_cell (x, y)) * SQUARE_SIZE,
                        snd (pixel_to_cell (x, y)) * SQUARE_SIZE,
                        SQUARE_SIZE, SQUARE_SIZE) /\
      color' = color.
Proof.
  unfold BOARD_SIZE, pixel_to_cell, SQUARE_SIZE. cbn [fst snd]. intros Hx Hy.
  pose proof (Z.div_mod x 80 ltac:(lia)) as Hdx.
  pose proof (Z.mod_pos_bound x 80 ltac:(lia)) as Hmx.
  pose proof (Z.div_mod y 80 ltac:(lia)) as Hdy.
  pose proof (Z.mod_pos_bound y 80 ltac:(lia)) as Hmy.
  exists (if (y / 80 + x / 80) mod 2 =? 0 then LIGHT_SQUARE_COLOR else DARK_SQUARE_COLOR).
  split.
  - apply in_draw_board. exists (y / 80), (x / 80).
    split; [lia|]. split; [lia|]. apply in_draw_cell_rect.
    unfold SQUARE_SIZE. split; reflexivity.
  - intros color' rx ry w h Hin Hrx Hry.
    apply in_draw_board in Hin. destruct Hin as [row [col [Hrow [Hcol Hin]]]].
    apply in_draw_cell_rect in Hin. unfold SQUARE_SIZE in Hin.
    destruct Hin as [Hrect ->]. injection Hrect as -> -> -> ->.
    assert (col = x / 80) by lia. assert (row = y / 80) by lia. subst col row.
    split; reflexivity.
Qed.


(** X17: when every piece has an image, [draw_board] blits, for each
    cell of the board whose square holds a piece, the image of that
    piece at the cell's corner. *)
Theorem every_piece_is_drawn (board : Board) (cell : Cell) (p : Piece) :
  has_all_images PIECES ->
  in_board cell = true ->
  piece_at board (cell_to_square_id cell) = Some p ->
  exists image_key s,
    dict_get PIECE_IMAGE_KEYS (symbol p) = Some image_key /\
    dict_get PIECES image_key = Some s /\
    In (Blit s (fst cell * SQUARE_SIZE, snd cell * SQUARE_SIZE)) (draw_board PIECES board).
Proof.
  intros Hall Hc Hp. destruct (Hall p) as [image_key [s [Hkey [_ Hs]]]].
  exists image_key, s. split; [exact Hkey|]. split; [exact Hs|].
  apply in_board_bounds in Hc. destruct cell as [col row]. cbn [fst snd] in *.
  apply in_draw_board. exists row, col. split; [lia|]. split; [lia|].
  apply in_draw_cell_blit. split; [reflexivity|]. exists p, image_key. auto.
Qed.

(** X18: what is drawn is what is clicked: if [draw_board] has put an
    image at some place, a left click anywhere on the 80 by 80 pixels
    from there on, with nothing selected, asks the engine for the very
    piece that image is of, and selects its cell when that piece is of
    the side to move. *)
Theorem click_on_drawn_piece (env : Env) (s : Surface) (dx dy i j : Z) :
  In (Blit s (dx, dy)) (draw_board PIECES (game_board env)) ->
  0 <= i < SQUARE_SIZE -> 0 <= j < SQUARE_SIZE ->
  selected_square_coords env = None ->
  exists p image_key,
    piece_at (game_board env) (cell_to_square_id (pixel_to_cell (dx + i, dy + j))) = Some p /\
    dict_get PIECE_IMAGE_KEYS (symbol p) = Some image_key /\
    dict_get PIECES image_key = Some s /\
    (dx, dy) = (fst (pixel_to_cell (dx + i, dy + j)) * SQUARE_SIZE,
                snd (pixel_to_cell (dx + i, dy + j)) * SQUARE_SIZE) /\
    handle_event (MOUSEBUTTONDOWN (dx + i, dy + j) 1) env =
      (Return tt,
       mkEnv (game_board env) (running env)
             (if Bool.eqb (color p) (turn (game_board env))
              then Some (pixel_to_cell (dx + i, dy + j)) else None)
             (calls env ++ [Call_piece_at
                              (cell_to_square_id (pixel_to_cell (dx + i, dy + j)))])).
Proof.
  intros Hin Hi Hj Hsel.
  apply in_draw_board in Hin. destruct Hin as [row [col [Hrow [Hcol Hin]]]].
  apply in_draw_cell_blit in Hin.
  destruct Hin as [Hdest [p [image_key [Hp [Hkey Hs]]]]].
  injection Hdest as -> ->.
  rewrite (pixel_to_cell_inside col row i j Hi Hj).
  assert (Hboard : in_board (col, row) = true)
    by (apply in_board_bounds; cbn [fst snd]; lia).
  exists p, image_key.
  split; [exact Hp|]. split; [exact Hkey|]. split; [exact Hs|]. split; [reflexivity|].
  rewrite (handle_first_click env _ Hsel)
    by (rewrite (pixel_to_cell_inside col row i j Hi Hj); exact Hboard).
  rewrite (pixel_to_cell_inside col row i j Hi Hj).
  change (cell_to_square_id (col, row)) with (square col (7 - row)).
  rewrite Hp. reflexivity.
Qed.

(** X19: in every state of the loop with a cell selected (every piece
    having an image), the frame is the background, the board, the
    yellow overlay, the status line, and the flip; the overlay lies at
    the corner of the selected cell, over a painted square and over the
    image of a piece of the side to move. *)
Theorem highlight_covers_selected_piece (env : Env) (col row : Z) :
  has_all_images PIECES ->
  reachable env ->
  selected_square_coords env = Some (col, row) ->
  draw_frame PIECES env =
    ([Fill (40, 40, 40)]
     ++ draw_board PIECES (game_board env)
     ++ [Blit (Overlay (SQUARE_SIZE, SQUARE_SIZE) (255, 255, 0, 150))
              (col * SQUARE_SIZE, row * SQUARE_SIZE);
         Blit (Rendered (status_text (game_board env)) (255, 255, 255))
              (BOARD_SIZE + 20, 20);
         Flip])%list /\
  exists p image_key s color,
    piece_at (game_board env) (cell_to_square_id (col, row)) = Some p /\
    PyChess.color p = turn (game_board env) /\
    dict_get PIECE_IMAGE_KEYS (symbol p) = Some image_key /\
    dict_get PIECES image_key = Some s /\
    In (Blit s (col * SQUARE_SIZE, row * SQUARE_SIZE)) (draw_board PIECES (game_board env)) /\
    In (DrawRect color (col * SQUARE_SIZE, row * SQUARE_SIZE, SQUARE_SIZE, SQUARE_SIZE))
       (draw_board PIECES (game_board env)).
Proof.
  intros Hall Hreach Hsel.
  split; [unfold draw_frame; rewrite Hsel; reflexivity|].
  destruct (reachable_selection_invariant env Hreach _ Hsel) as [Hc [p [Hp Hcol]]].
  destruct (Hall p) as [image_key [s [Hkey [_ Hs]]]].
  pose proof (proj1 (in_board_bounds _) Hc) as Hb. cbn [fst snd] in Hb.
  exists p, image_key, s,
    (if (row + col) mod 2 =? 0 then LIGHT_SQUARE_COLOR else DARK_SQUARE_COLOR).
  repeat (split; [assumption|]). split.
  - apply in_draw_board. exists row, col. split; [lia|]. split; [lia|].
    apply in_draw_cell_blit. split; [reflexivity|]. exists p, image_key. auto.
  - apply in_draw_board. exists row, col. split; [lia|]. split; [lia|].
    apply in_draw_cell_rect. split; reflexivity.
Qed.

End DrawingFacts.

(** ** The further properties on the reference engine *)

Module MoreRuns.
Import ReferenceEngine Samples MoreSamples.

Lemma grey_pieces_has_all_images : has_all_images grey_pieces.
Proof.
  intros p. destruct p as [[] []]; eexists; eexists;
    (split; [reflexivity|]); (split; [discriminate | reflexivity]).
Qed.

Lemma selection_always_on_own_piece_witness :
  in_board (4, 6) = true /\
  exists p, piece_at (game_board e2_selected) (cell_to_square_id (4, 6)) = Some p /\
            color p = turn (game_board e2_selected).
Proof.
  apply (selection_always_on_own_piece e2_selected (4, 6)).
  - apply Runs.play_reachable. vm_compute. reflexivity.
  - vm_compute. reflexivity.
Defined.

Lemma board_changes_only_by_legal_move_witness :
  exists env',
    handle_event (click 4 4) e2_selected = (Return tt, env') /\
    (game_board env' = game_board e2_selected \/
     exists origin m,
       selected_square_coords e2_selected = Some origin /\
       is_left_click (click 4 4) = true /\
       from_square m = cell_to_square_id origin /\
       is_legal (game_board e2_selected) m = true /\
       game_board env' = push (game_board e2_selected) m /\
       selected_square_coords env' = None).
Proof.
  apply (board_changes_only_by_legal_move e2_selected (click 4 4)).
  apply Runs.play_reachable. vm_compute. reflexivity.
Defined.

Lemma legal_move_pushed_witness :
  fst (handle_event (click 4 4) e2_selected) = Return tt /\
  game_board (snd (handle_event (click 4 4) e2_selected))
  = apply_move start (mkMove 12 28 None None).
Proof.
  pose proof (legal_move_pushed e2_selected
                (snd (candidate (4, 6) (4, 4) e2_selected))
                (4, 6) (4 * SQUARE_SIZE + 40, 4 * SQUARE_SIZE + 40)
                (mkMove 12 28 None None)) as H.
  change (MOUSEBUTTONDOWN (4 * SQUARE_SIZE + 40, 4 * SQUARE_SIZE + 40) 1)
    with (click 4 4) in H.
  rewrite H.
  - split; [reflexivity|]. cbn [snd game_board]. vm_compute. reflexivity.
  - apply Runs.play_reachable. vm_compute. reflexivity.
  - vm_compute. reflexivity.
  - vm_compute. reflexivity.
  - apply Runs.pair_of_fst. vm_compute. reflexivity.
  - vm_compute. reflexivity.
Defined.

Lemma pushed_moves_plain_or_queen_witness :
  plain_or_queen (mkMove 49 56 (Some QUEEN) None).
Proof.
  apply (pushed_moves_plain_or_queen promoted).
  - apply Runs.play_reachable. vm_compute. reflexivity.
  - vm_compute. repeat (first [left; reflexivity | right]).
Defined.

Lemma candidate_without_promotion_witness :
  fst (candidate (4, 6) (4, 4) e2_selected) = Return (mkMove 12 28 None None).
Proof.
  destruct (candidate_without_promotion e2_selected (4, 6) (4, 4) (mkPiece PAWN WHITE))
    as [na [nb [_ [_ Hcand]]]].
  - reflexivity.
  - reflexivity.
  - vm_compute. reflexivity.
  - vm_compute. discriminate.
  - right. vm_compute. split; discriminate.
  - rewrite Hcand. reflexivity.
Defined.

Lemma quit_ends_the_loop_witness :
  exists env',
    handle_events [click 4 6; QUIT; click 4 4] (initial_env (E := engine))
      = (Return tt, env') /\
    running env' = false /\
    main_loop ([click 4 6; QUIT; click 4 4] :: [[click 0 6]; [click 0 4]])
              (initial_env (E := engine))
      = (Return [status_text (game_board env')], env').
Proof.
  apply (quit_ends_the_loop (initial_env (E := engine))).
  - apply reachable_initial.
  - reflexivity.
  - right. left. reflexivity.
Defined.

Lemma loop_runs_every_frame_witness :
  exists texts env',
    main_loop [[click 4 6]; []; [click 4 4]] (initial_env (E := engine))
      = (Return texts, env') /\
    List.length texts = 3%nat /\
    running env' = true.
Proof.
  apply (loop_runs_every_frame (E := engine) [[click 4 6]; []; [click 4 4]]).
  intros events Hin Hquit.
  destruct Hin as [<- | [<- | [<- | []]]]; cbn in Hquit; intuition discriminate.
Defined.

Lemma click_on_selected_cell_deselects_witness :
  exists na,
    square_name (cell_to_square_id (4, 6)) = Return na /\
    handle_event (click 4 6) e2_selected =
      (Return tt,
       mkEnv (game_board e2_selected) (running e2_selected) None
             (calls e2_selected ++ [Call_from_uci (na ++ na)])).
Proof.
  apply (click_on_selected_cell_deselects e2_selected (4, 6)
           (4 * SQUARE_SIZE + 40, 6 * SQUARE_SIZE + 40)).
  - vm_compute. reflexivity.
  - reflexivity.
  - vm_compute. reflexivity.
Defined.

Lemma window_pixel_on_board_iff_witness :
  (in_board (pixel_to_cell (700, 100)) = true <-> 700 < BOARD_SIZE) /\
  (in_board (pixel_to_cell (639, 639)) = true <-> 639 < BOARD_SIZE).
Proof.
  split.
  - apply (window_pixel_on_board_iff 700 100); vm_compute; split; congruence.
  - apply (window_pixel_on_board_iff 639 639); vm_compute; split; congruence.
Defined.

Lemma load_pieces_has_all_images_witness :
  exists pieces,
    snd (load_pieces true white_pawn_broken) = Some pieces /\
    has_all_images pieces.
Proof.
  eexists. split; [vm_compute; reflexivity|].
  apply (load_pieces_has_all_images true white_pawn_broken).
  vm_compute. reflexivity.
Defined.

Lemma load_pieces_with_assets_witness :
  exists pieces,
    load_pieces true white_pawn_broken =
      (["Warning: Could not load image wP.png from assets folder."], Some pieces) /\
    dict_get pieces "wP" = Some (Filled (SQUARE_SIZE, SQUARE_SIZE) (200, 0, 0)) /\
    dict_get pieces "bK" = Some (Scaled "assets/bK.png" (SQUARE_SIZE, SQUARE_SIZE)).
Proof.
  destruct (load_pieces_with_assets white_pawn_broken) as [pieces [Hrun Hget]].
  - intros name Hin. cbn in Hin.
    repeat (destruct Hin as [<- | Hin]; [vm_compute; discriminate|]). destruct Hin.
  - exists pieces. split; [exact Hrun|]. split.
    + rewrite (Hget "wP") by (cbn; auto 20). reflexivity.
    + rewrite (Hget "bK") by (cbn; auto 20). reflexivity.
Defined.

Lemma load_pieces_uncaught_witness :
  snd (load_pieces true black_king_missing) = None.
Proof.
  apply (load_pieces_uncaught black_king_missing "bK").
  - cbn. auto 20.
  - reflexivity.
Defined.

Lemma draw_board_tiles_the_board_witness :
  exists color,
    In (DrawRect color (fst (pixel_to_cell (330, 500)) * SQUARE_SIZE,
                        snd (pixel_to_cell (330, 500)) * SQUARE_SIZE,
                        SQUARE_SIZE, SQUARE_SIZE))
       (draw_board (E := engine) grey_pieces start) /\
    forall color' rx ry w h,
      In (DrawRect color' (rx, ry, w, h)) (draw_board (E := engine) grey_pieces start) ->
      rx <= 330 < rx + w -> ry <= 500 < ry + h ->
      (rx, ry, w, h) = (fst (pixel_to_cell (330, 500)) * SQUARE_SIZE,
                        snd (pixel_to_cell (330, 500)) * SQUARE_SIZE,
                        SQUARE_SIZE, SQUARE_SIZE) /\
      color' = color.
Proof.
  apply (draw_board_tiles_the_board (E := engine) grey_pieces start 330 500);
    vm_compute; split; congruence.
Defined.


Lemma every_piece_is_drawn_witness :
  exists image_key s,
    dict_get PIECE_IMAGE_KEYS "P" = Some image_key /\
    dict_get grey_pieces image_key = Some s /\
    In (Blit s (4 * SQUARE_SIZE, 6 * SQUARE_SIZE))
       (draw_board (E := engine) grey_pieces start).
Proof.
  apply (every_piece_is_drawn (E := engine) grey_pieces start (4, 6) (mkPiece PAWN WHITE)).
  - exact grey_pieces_has_all_images.
  - reflexivity.
  - vm_compute. reflexivity.
Defined.

Lemma click_on_drawn_piece_witness :
  fst (handle_event (MOUSEBUTTONDOWN (320 + 10, 480 + 20) 1) (initial_env (E := engine)))
  = Return tt /\
  selected_square_coords
    (snd (handle_event (MOUSEBUTTONDOWN (320 + 10, 480 + 20) 1) (initial_env (E := engine))))
  = Some (4, 6).
Proof.
  destruct (click_on_drawn_piece (E := engine) grey_pieces initial_env
              (Filled (SQUARE_SIZE, SQUARE_SIZE) (150, 150, 150)) 320 480 10 20)
    as [p [image_key [Hp [_ [_ [_ Hrun]]]]]].
  - apply (proj2 (in_draw_board (E := engine) grey_pieces start _)). exists 6, 4.
    split; [lia|]. split; [lia|]. vm_compute. right. left. reflexivity.
  - vm_compute. split; congruence.
  - vm_compute. split; congruence.
  - reflexivity.
  - rewrite Hrun. split; [reflexivity|]. cbn [snd selected_square_coords].
    vm_compute in Hp. injection Hp as <-. vm_compute. reflexivity.
Defined.

Lemma highlight_covers_selected_piece_witness :
  In (Blit (Overlay (SQUARE_SIZE, SQUARE_SIZE) (255, 255, 0, 150))
           (4 * SQUARE_SIZE, 6 * SQUARE_SIZE))
     (draw_frame grey_pieces e2_selected).
Proof.
  destruct (highlight_covers_selected_piece (E := engine) grey_pieces e2_selected 4 6)
    as [Hframe _].
  - exact grey_pieces_has_all_images.
  - apply Runs.play_reachable. vm_compute. reflexivity.
  - vm_compute. reflexivity.
  - rewrite Hframe. apply in_or_app. right. apply in_or_app. right.
    left. reflexivity.
Defined.

End MoreRuns.
